(** * Product listing: paginated fetcher and local filter/sort view

    A shallow embedding of the two pieces of logic of the repository that
    carry behaviour:

    - [expo/src/hooks/useProducts.ts]: the query key, the remote query that
      [fetchProducts] builds, [getNextPageParam] and [prefetchNextPage];
    - [src/components/ModifyProductsList.tsx]: the derivation of
      [filteredAndSortedProducts] from the [products] prop.

    Conventions of the embedding.
    - JavaScript numbers that the code uses as counts, row indices, prices
      and millisecond timestamps are integers of [Z]; [NaN] is an absent
      value ([None]).
    - Strings are sequences of code units of the Latin-1 range (Rocq's
      8-bit [ascii]); [toLowerCase] and [trim] are the restrictions of the
      JavaScript functions to that range.
    - [null] and [undefined] are [None]; a value used as a condition is
      read through its truthiness.
    - Arrays are mutable objects: they live in a store and are named by
      references, so that [Array.prototype.sort], which sorts in place,
      and [Array.prototype.filter], which allocates, are told apart. *)

From Stdlib Require Import ZArith Ascii String List Bool Lia Sorting.Sorted
  Sorting.Permutation.
From stdpp Require Import base option list strings gmap.

Local Open Scope string_scope.
Local Open Scope list_scope.
Local Open Scope Z_scope.

(** ** JavaScript strings *)

Module JsString.
Local Open Scope string_scope.

Definition code (c : ascii) : N := N_of_ascii c.

(** [String.prototype.toLowerCase] on one code unit below 256: the
    letters A-Z and the Latin-1 capitals U+00C0..U+00DE other than the
    multiplication sign U+00D7 move up by 32. *)
Definition is_upper (c : ascii) : bool :=
  let n := code c in
  ((65 <=? n) && (n <=? 90))%N
  || ((192 <=? n) && (n <=? 222) && negb (n =? 215))%N.

Definition lower_char (c : ascii) : ascii :=
  if is_upper c then ascii_of_N (code c + 32) else c.

Fixpoint toLowerCase (s : string) : string :=
  match s with
  | EmptyString => EmptyString
  | String c s' => String (lower_char c) (toLowerCase s')
  end.

(** White space and line terminators that [trim] strips, below 256:
    TAB, LF, VT, FF, CR, SPACE and NO-BREAK SPACE. *)
Definition is_space (c : ascii) : bool :=
  let n := code c in
  ((9 <=? n) && (n <=? 13) || (n =? 32) || (n =? 160))%N.

Fixpoint trimStart (s : string) : string :=
  match s with
  | EmptyString => EmptyString
  | String c s' => if is_space c then trimStart s' else s
  end.

Fixpoint trimEnd (s : string) : string :=
  match s with
  | EmptyString => EmptyString
  | String c s' =>
      match trimEnd s' with
      | EmptyString => if is_space c then EmptyString else String c EmptyString
      | t => String c t
      end
  end.

Definition trim (s : string) : string := trimEnd (trimStart s).

Fixpoint startsWith (s t : string) {struct t} : bool :=
  match t with
  | EmptyString => true
  | String b t' =>
      match s with
      | EmptyString => false
      | String a s' => Ascii.eqb a b && startsWith s' t'
      end
  end.

(** [s.includes(t)]: [t] occurs in [s] at some position. *)
Fixpoint includes (s t : string) : bool :=
  startsWith s t
  || match s with
     | EmptyString => false
     | String _ s' => includes s' t
     end.

(** A string used as a condition is true when it is not empty. *)
Definition truthy (s : string) : bool := negb (String.eqb s "").

(** Every code unit of the string is white space. *)
Fixpoint all_space (s : string) : bool :=
  match s with
  | EmptyString => true
  | String c s' => is_space c && all_space s'
  end.

(** [t] occurs in [s]: some text before it and some text after it. *)
Definition occurs_in (t s : string) : Prop :=
  exists pre post, s = pre ++ t ++ post.

End JsString.

(** ** Stable sorting by a comparator

    [Array.prototype.sort(compareFn)] is a stable sort: [a] is placed
    after [b] only when [compareFn(a, b) > 0], and elements that compare
    equal keep their relative order.  [sorted_by] is the stable insertion
    sort driven by the sign of the comparator. *)

Section StableSort.
Context {A : Type}.
Variable cmp : A -> A -> Z.

Fixpoint sort_insert (x : A) (l : list A) : list A :=
  match l with
  | [] => [x]
  | y :: l' => if cmp x y <=? 0 then x :: l else y :: sort_insert x l'
  end.

Definition sorted_by (l : list A) : list A := foldr sort_insert [] l.

(** The comparator agrees, on the elements of [l], with the order of an
    integer key. *)
Variable key : A -> Z.

Definition le_key (a b : A) : Prop := key a <= key b.

Definition keyed_on (l : list A) : Prop :=
  forall a b, In a l -> In b l -> (cmp a b <= 0 <-> key a <= key b).

Definition has_key (v : Z) (a : A) : bool := key a =? v.

End StableSort.

(** ** Products

    The fields of a product row that the two components read.  A field
    the code guards with [?.] or [|| 0] may be absent.  [created_at]
    holds the value of [new Date(created_at).getTime()]: milliseconds
    since the epoch, absent ([NaN]) when the text is not a date. *)

Record Profile := {
  username : option string;
  full_name : option string;
  avatar_url : option string
}.

Record Product := {
  id : string;
  title : option string;
  price : option Z;
  category : option string;
  user_id : string;
  product_status : option string;
  created_at : option Z;
  profiles : option Profile
}.

(** ** Arrays in the store *)

Module JsArray.

Abbreviation ref := positive.
Abbreviation store := (gmap positive (list Product)).

(** A computation reads and updates the store; it fails on a dangling
    reference. *)
Definition M (A : Type) : Type := store -> option (A * store).

Definition ret {A} (a : A) : M A := fun s => Some (a, s).

Definition bind {A B} (m : M A) (k : A -> M B) : M B :=
  fun s => match m s with
           | Some (a, s') => k a s'
           | None => None
           end.

(** [arr.filter(f)] allocates a new array and leaves [arr] alone. *)
Definition filter (f : Product -> bool) (arr : ref) : M ref :=
  fun s => match s !! arr with
           | Some l =>
               let r := fresh (dom s) in
               Some (r, <[r := List.filter f l]> s)
           | None => None
           end.

(** [arr.sort(cmp)] sorts [arr] in place and returns [arr] itself. *)
Definition sort (cmp : Product -> Product -> Z) (arr : ref) : M ref :=
  fun s => match s !! arr with
           | Some l => Some (arr, <[arr := sorted_by cmp l]> s)
           | None => None
           end.

End JsArray.

(** ** The local filter/sort view ([ModifyProductsList.tsx]) *)

Module ModifyProductsList.
Import JsString.

(** The three pieces of component state, with their initial values
    [""], ["all"] and ["none"]. *)
Record State := {
  searchQuery : string;
  selectedCategory : string;
  sortOrder : string
}.

Definition initialState : State :=
  {| searchQuery := ""; selectedCategory := "all"; sortOrder := "none" |}.

(** [field?.toLowerCase().includes(searchQuery.toLowerCase())]: an
    absent field gives [undefined], which counts as false. *)
Definition field_includes (field : option string) (q : string) : bool :=
  match field with
  | Some s => includes (toLowerCase s) (toLowerCase q)
  | None => false
  end.

Definition matchesSearch (st : State) (product : Product) : bool :=
  String.eqb (trim (toLowerCase (searchQuery st))) ""
  || field_includes (title product) (searchQuery st)
  || field_includes (profiles product ≫= username) (searchQuery st)
  || field_includes (profiles product ≫= full_name) (searchQuery st).

Definition matchesCategory (st : State) (product : Product) : bool :=
  String.eqb (selectedCategory st) "all"
  || match category product with
     | Some c => String.eqb c (selectedCategory st)
     | None => false
     end.

(** The callback of [products.filter]. *)
Definition filter_callback (st : State) (product : Product) : bool :=
  matchesSearch st product && matchesCategory st product.

(** [a.price || 0] *)
Definition price_or_0 (a : Product) : Z :=
  match price a with
  | Some v => if v =? 0 then 0 else v
  | None => 0
  end.

(** [new Date(x).getTime() - new Date(y).getTime()]; when either date is
    invalid the difference is [NaN], which the sort reads as [+0]. *)
Definition time_diff (x y : Product) : Z :=
  match created_at x, created_at y with
  | Some tx, Some ty => tx - ty
  | _, _ => 0
  end.

Definition is_draft (a : Product) : bool :=
  match product_status a with
  | Some s => String.eqb s "draft"
  | None => false
  end.

(** The callback of [.sort]. *)
Definition sort_callback (st : State) (a b : Product) : Z :=
  if String.eqb (sortOrder st) "price_asc" then price_or_0 a - price_or_0 b
  else if String.eqb (sortOrder st) "price_desc"
       then price_or_0 b - price_or_0 a
  else if String.eqb (sortOrder st) "newest" then time_diff b a
  else if String.eqb (sortOrder st) "oldest" then time_diff a b
  else if is_draft a && negb (is_draft b) then -1
  else if negb (is_draft a) && is_draft b then 1
  else 0.

(** [products.filter(...).sort(...)] on the store. *)
Definition filteredAndSortedProducts (st : State) (products : JsArray.ref)
  : JsArray.M JsArray.ref :=
  JsArray.bind (JsArray.filter (filter_callback st) products)
               (JsArray.sort (sort_callback st)).

(** The contents of the array that the derivation returns. *)
Definition view (st : State) (products : list Product) : list Product :=
  sorted_by (sort_callback st) (List.filter (filter_callback st) products).

(** The sort order is none of the four named modes. *)
Definition default_mode (st : State) : Prop :=
  sortOrder st <> "price_asc" /\ sortOrder st <> "price_desc"
  /\ sortOrder st <> "newest" /\ sortOrder st <> "oldest".

Definition has_time (a : Product) : Prop := is_Some (created_at a).

Definition getTime (a : Product) : Z := default 0 (created_at a).

(** *** The filter as the specification words it *)

(** The search text appears in the field, ignoring case. *)
Definition appears_in (q : string) (field : option string) : Prop :=
  exists s, field = Some s /\ occurs_in (toLowerCase q) (toLowerCase s).

Definition text_matches (q : string) (product : Product) : Prop :=
  appears_in q (title product)
  \/ appears_in q (profiles product ≫= username)
  \/ appears_in q (profiles product ≫= full_name).

Definition category_matches (cat : string) (product : Product) : Prop :=
  cat = "all" \/ category product = Some cat.

(** Passing the filter, as the specification states it. *)
Definition spec_passes (st : State) (product : Product) : Prop :=
  (searchQuery st = "" \/ text_matches (searchQuery st) product)
  /\ category_matches (selectedCategory st) product.

(** *** Shapes of the output *)

(** Drafts have rank 0 and the other products rank 1. *)
Definition draft_rank (a : Product) : Z := if is_draft a then 0 else 1.

(** Every draft comes before every product that is not a draft. *)
Definition drafts_first (l : list Product) : Prop :=
  exists drafts others,
    l = drafts ++ others
    /\ Forall (fun a => is_draft a = true) drafts
    /\ Forall (fun a => is_draft a = false) others.

(** Every draft comes after every product that is not a draft. *)
Definition drafts_last (l : list Product) : Prop :=
  exists others drafts,
    l = others ++ drafts
    /\ Forall (fun a => is_draft a = false) others
    /\ Forall (fun a => is_draft a = true) drafts.

(** The price is absent or zero. *)
Definition zero_priced (a : Product) : bool := price_or_0 a =? 0.

(** The products priced zero, absent prices included, come first. *)
Definition zeros_first (l : list Product) : Prop :=
  exists zeros rest,
    l = zeros ++ rest
    /\ Forall (fun a => zero_priced a = true) zeros
    /\ Forall (fun a => zero_priced a = false) rest.

(** The products priced zero, absent prices included, come last. *)
Definition zeros_last (l : list Product) : Prop :=
  exists rest zeros,
    l = rest ++ zeros
    /\ Forall (fun a => zero_priced a = false) rest
    /\ Forall (fun a => zero_priced a = true) zeros.

(** *** Sample data *)

Definition sample (i : string) (p : option Z) (status : string) : Product :=
  {| id := i; title := Some ("Item" +:+ i); price := p;
     category := Some "tools"; user_id := "u1";
     product_status := Some status; created_at := Some 1700000000000;
     profiles := Some {| username := Some "Alice"; full_name := None;
                         avatar_url := None |} |}.

Definition with_sortOrder (o : string) (st : State) : State :=
  {| searchQuery := searchQuery st; selectedCategory := selectedCategory st;
     sortOrder := o |}.

End ModifyProductsList.

(** ** The paginated fetcher ([useProducts.ts]) *)

Module UseProducts.
Import JsString.

(** The properties a caller passes; the optional ones may be absent. *)
Record UseProductsProps := {
  props_searchQuery : string;
  props_selectedCategory : string;
  props_selectedRegion : option string;
  props_selectedCountry : option string;
  props_sortOrder : string;
  props_showOnlyPublished : option bool;
  props_userOnly : option bool;
  props_limit : option Z
}.

(** The parameter tuple the body of the hook works with, after the
    defaults of the destructuring pattern. *)
Record Params := {
  searchQuery : string;
  selectedCategory : string;
  selectedRegion : string;
  selectedCountry : string;
  sortOrder : string;
  showOnlyPublished : bool;
  userOnly : bool;
  limit : Z
}.

Definition destructure (props : UseProductsProps) : Params :=
  {| searchQuery := props_searchQuery props;
     selectedCategory := props_selectedCategory props;
     selectedRegion := default "all" (props_selectedRegion props);
     selectedCountry := default "all" (props_selectedCountry props);
     sortOrder := props_sortOrder props;
     showOnlyPublished := default false (props_showOnlyPublished props);
     userOnly := default false (props_userOnly props);
     limit := default 10 (props_limit props) |}.

(** *** The query key *)

Inductive KeyPart :=
| KString (s : string)
| KBool (b : bool).

Definition queryKey (p : Params) : list KeyPart :=
  [ KString "products"; KString (searchQuery p);
    KString (selectedCategory p); KString (selectedRegion p);
    KString (selectedCountry p); KString (sortOrder p);
    KBool (showOnlyPublished p); KBool (userOnly p) ].

(** *** The remote query *)

(** A value compared with a column: a string, or [Number(s)] for the
    string [s]. *)
Inductive Value :=
| VString (s : string)
| VNumber (s : string).

Inductive Clause :=
| Ilike (column pattern : string)
| Eq (column : string) (v : Value).

Record Order := { order_column : string; ascending : bool }.

Record Query := {
  from : string;
  select : string;
  range : Z * Z;
  clauses : list Clause;
  order : option Order
}.

Definition with_clause (c : Clause) (q : Query) : Query :=
  {| from := from q; select := select q; range := range q;
     clauses := clauses q ++ [c]; order := order q |}.

Definition ilike (column pattern : string) : Query -> Query :=
  with_clause (Ilike column pattern).

Definition eq (column : string) (v : Value) : Query -> Query :=
  with_clause (Eq column v).

Definition with_order (column : string) (asc : bool) (q : Query) : Query :=
  {| from := from q; select := select q; range := range q;
     clauses := clauses q;
     order := Some {| order_column := column; ascending := asc |} |}.

(** The authenticated identity, as [supabase.auth.getUser()] reports it. *)
Record User := { auth_id : string }.

(** What the store answers to a query: [{ data, error }]. *)
Record Response := {
  data : list Product;
  error : option string
}.

(** The remote store, seen from the hook. *)
Record Supabase := {
  auth_getUser : option User;
  execute : Query -> Response
}.

(** The query that [fetchProducts] has built when it awaits it. *)
Definition fetchProducts_query
    (supabase : Supabase) (p : Params) (pageParam : option Z) : Query :=
  let startRange := default 0 pageParam * limit p in
  let endRange := startRange + (limit p - 1) in
  let query :=
    {| from := "products";
       select := "*, product_images(*), profiles:user_id(username, full_name, avatar_url)";
       range := (startRange, endRange);
       clauses := [];
       order := None |} in
  let query :=
    if truthy (searchQuery p)
    then ilike "title" ("%" +:+ searchQuery p +:+ "%") query
    else query in
  let query :=
    if negb (String.eqb (selectedCategory p) "all")
    then eq "category" (VString (selectedCategory p)) query
    else query in
  let query :=
    if truthy (selectedRegion p) && negb (String.eqb (selectedRegion p) "all")
    then eq "county" (VString (selectedRegion p)) query
    else query in
  let query :=
    if truthy (selectedCountry p)
       && negb (String.eqb (selectedCountry p) "all")
    then eq "country_id" (VNumber (selectedCountry p)) query
    else query in
  let query :=
    if showOnlyPublished p
    then eq "product_status" (VString "published") query
    else query in
  let query :=
    if userOnly p
    then match auth_getUser supabase with
         | Some user => eq "user_id" (VString (auth_id user)) query
         | None => query
         end
    else query in
  if String.eqb (sortOrder p) "asc" then with_order "price" true query
  else if String.eqb (sortOrder p) "desc" then with_order "price" false query
  else with_order "created_at" false query.

(** [fetchProducts]: the page ([inl]) or the error thrown ([inr]). *)
Definition fetchProducts
    (supabase : Supabase) (p : Params) (pageParam : option Z)
  : list Product + string :=
  let response := execute supabase (fetchProducts_query supabase p pageParam) in
  match error response with
  | Some e => inr e
  | None => inl (data response)
  end.

(** *** Pagination *)

Definition getNextPageParam
    (p : Params) (lastPage : list Product) (allPages : list (list Product))
  : option Z :=
  if Z.of_nat (length lastPage) <? limit p
  then None
  else Some (Z.of_nat (length allPages)).

(** What [useInfiniteQuery] returns, as far as the hook reads it. *)
Record InfiniteData := {
  pages : list (list Product);
  pageParams : list Z
}.

Record InfiniteQueryResult := {
  result_data : option InfiniteData;
  isFetchingNextPage : bool;
  hasNextPage : bool
}.

(** The options object handed to [queryClient.prefetchInfiniteQuery];
    its [queryFn] is always [fetchProducts]. *)
Record PrefetchOptions := {
  prefetch_queryKey : list KeyPart;
  prefetch_initialPageParam : Z
}.

(** [prefetchNextPage]: the call to [prefetchInfiniteQuery] it makes, if
    it makes one. *)
Definition prefetchNextPage (p : Params) (result : InfiniteQueryResult)
  : option PrefetchOptions :=
  match result_data result with
  | Some d =>
      if negb (isFetchingNextPage result) && hasNextPage result
      then
        let nextPageParam := Z.of_nat (length (pages d)) in
        Some {| prefetch_queryKey := queryKey p;
                prefetch_initialPageParam := 0 |}
      else None
  | None => None
  end.

(** The parameter tuples agree on everything but the page size. *)
Definition same_but_limit (p1 p2 : Params) : Prop :=
  searchQuery p1 = searchQuery p2
  /\ selectedCategory p1 = selectedCategory p2
  /\ selectedRegion p1 = selectedRegion p2
  /\ selectedCountry p1 = selectedCountry p2
  /\ sortOrder p1 = sortOrder p2
  /\ showOnlyPublished p1 = showOnlyPublished p2
  /\ userOnly p1 = userOnly p2.

Definition with_limit (n : Z) (p : Params) : Params :=
  {| searchQuery := searchQuery p; selectedCategory := selectedCategory p;
     selectedRegion := selectedRegion p; selectedCountry := selectedCountry p;
     sortOrder := sortOrder p; showOnlyPublished := showOnlyPublished p;
     userOnly := userOnly p; limit := n |}.

Definition with_userOnly (b : bool) (p : Params) : Params :=
  {| searchQuery := searchQuery p; selectedCategory := selectedCategory p;
     selectedRegion := selectedRegion p; selectedCountry := selectedCountry p;
     sortOrder := sortOrder p; showOnlyPublished := showOnlyPublished p;
     userOnly := b; limit := limit p |}.

(** *** Shapes of the query *)

(** The clause a condition contributes. *)
Definition clause_when (b : bool) (c : Clause) : list Clause :=
  if b then [c] else [].

(** The clause [userOnly] contributes. *)
Definition user_clause (supabase : Supabase) (p : Params) : list Clause :=
  if userOnly p
  then match auth_getUser supabase with
       | Some user => [Eq "user_id" (VString (auth_id user))]
       | None => []
       end
  else [].

Definition with_selectedCategory (c : string) (p : Params) : Params :=
  {| searchQuery := searchQuery p; selectedCategory := c;
     selectedRegion := selectedRegion p; selectedCountry := selectedCountry p;
     sortOrder := sortOrder p; showOnlyPublished := showOnlyPublished p;
     userOnly := userOnly p; limit := limit p |}.

Definition with_selectedRegion (r : string) (p : Params) : Params :=
  {| searchQuery := searchQuery p; selectedCategory := selectedCategory p;
     selectedRegion := r; selectedCountry := selectedCountry p;
     sortOrder := sortOrder p; showOnlyPublished := showOnlyPublished p;
     userOnly := userOnly p; limit := limit p |}.

Definition with_selectedCountry (c : string) (p : Params) : Params :=
  {| searchQuery := searchQuery p; selectedCategory := selectedCategory p;
     selectedRegion := selectedRegion p; selectedCountry := c;
     sortOrder := sortOrder p; showOnlyPublished := showOnlyPublished p;
     userOnly := userOnly p; limit := limit p |}.

(** Every page fetched so far is full. *)
Definition all_full (p : Params) (allPages : list (list Product)) : Prop :=
  Forall (fun page => Z.of_nat (length page) = limit p) allPages.

(** *** Sample data *)

(** The tuple of a caller that passes an empty search, category "all"
    and sort order "newest" and leaves the optional properties out. *)
Definition sampleParams : Params :=
  destructure
    {| props_searchQuery := ""; props_selectedCategory := "all";
       props_selectedRegion := None; props_selectedCountry := None;
       props_sortOrder := "newest"; props_showOnlyPublished := None;
       props_userOnly := None; props_limit := None |}.

(** A store that answers every query with [rows] and no error. *)
Definition answering (user : option User) (rows : list Product) : Supabase :=
  {| auth_getUser := user;
     execute := fun _ => {| data := rows; error := None |} |}.

(** A full page of ten rows. *)
Definition fullPage : list Product :=
  replicate 10
    {| id := "p"; title := Some "Lamp"; price := Some 5;
       category := Some "home"; user_id := "u1";
       product_status := Some "published";
       created_at := Some 1700000000000; profiles := None |}.

(** One page fetched, no fetch in flight, a further page expected. *)
Definition onePageLoaded : InfiniteQueryResult :=
  {| result_data := Some {| pages := [fullPage]; pageParams := [0] |};
     isFetchingNextPage := false;
     hasNextPage := true |}.

End UseProducts.

(** ** The other queries and the rendering of [ModifyProductsList.tsx] *)

Module ModifyProductsListRest.
Import UseProducts.

(** [supabase.rpc('is_admin', { user_id })] answers [{ data, error }];
    the component reads [data] only. *)
Record RpcResponse := {
  rpc_data : option bool;
  rpc_error : option string
}.

(** The store, seen from the ["isAdmin"] query. *)
Record Backend := {
  getUser : option User;
  rpc_is_admin : string -> RpcResponse
}.

(** The requests the query function sends. *)
Inductive Request :=
| AuthGetUser
| RpcIsAdmin (user_id : string).

(** The [queryFn] of the ["isAdmin"] query: the requests it sends and
    the value it resolves to. *)
Definition isAdmin_queryFn (b : Backend) : list Request * option bool :=
  match getUser b with
  | None => ([AuthGetUser], Some false)
  | Some user =>
      ([AuthGetUser; RpcIsAdmin (auth_id user)],
       rpc_data (rpc_is_admin b (auth_id user)))
  end.

(** [isAdmin] read as a condition: [null] and [undefined] are false. *)
Definition is_truthy (v : option bool) : bool := default false v.

(** [isLoading && ...]: the loading row is rendered. *)
Definition shows_loading (isLoading : bool) : bool := isLoading.

(** [!isLoading && filteredAndSortedProducts.length === 0 && ...]: the
    "No products found" row is rendered. *)
Definition shows_no_products
    (isLoading : bool) (filteredAndSortedProducts : list Product) : bool :=
  negb isLoading && (length filteredAndSortedProducts =? 0)%nat.

End ModifyProductsListRest.

(** ** The submit button ([ProductSubmitButton]) *)

Module ProductSubmitButton.

Inductive Content :=
| Processing
| Text (submitButtonText : string).

(** What the button renders: its [disabled] attribute and its content. *)
Record Rendered := {
  disabled : bool;
  content : Content
}.

Definition render (isLoading isValid : bool) (submitButtonText : string)
  : Rendered :=
  {| disabled := isLoading || negb isValid;
     content := if isLoading then Processing else Text submitButtonText |}.

End ProductSubmitButton.

(** * Facts *)

(** ** JavaScript strings *)

Section JsStringFacts.
Import JsString.
Local Open Scope string_scope.

Lemma startsWith_spec s t :
  startsWith s t = true <-> exists post, s = t ++ post.
Proof.
  revert s. induction t as [|b t IH]; intros s; simpl.
  - split; [intros _; exists s; reflexivity | reflexivity].
  - destruct s as [|a s]; simpl.
    + split; [done | intros [post H]; discriminate].
    + rewrite andb_true_iff, IH, Ascii.eqb_eq. split.
      * intros [-> [post ->]]. by exists post.
      * intros [post H]. injection H as -> ->. eauto.
Qed.

Lemma includes_spec s t : includes s t = true <-> occurs_in t s.
Proof.
  unfold occurs_in. induction s as [|a s IH]; simpl.
  - rewrite orb_false_r, startsWith_spec. split.
    + intros [post H]. by exists "", post.
    + intros [[|c pre] [post H]]; simpl in H; [eauto | discriminate].
  - rewrite orb_true_iff, IH, startsWith_spec. split.
    + intros [[post H] | (pre & post & H)].
      * by exists "", post.
      * exists (String a pre), post. simpl. by rewrite H.
    + intros [[|c pre] [post H]]; simpl in H.
      * left. eauto.
      * right. injection H as _ ->. eauto.
Qed.

Lemma trimStart_all_space s : all_space s = true -> trimStart s = "".
Proof.
  induction s as [|c s IH]; simpl; [done|].
  destruct (is_space c); simpl; [exact IH | done].
Qed.

Lemma trimStart_not_all_space s :
  all_space s = false ->
  exists c t, trimStart s = String c t /\ is_space c = false.
Proof.
  induction s as [|c s IH]; simpl; [done|].
  destruct (is_space c) eqn:Hc; simpl; [exact IH | eauto].
Qed.

Lemma trimEnd_nonspace_head c t :
  is_space c = false -> trimEnd (String c t) <> "".
Proof. simpl. intros ->. by destruct (trimEnd t). Qed.

(** [trim] leaves nothing exactly when the string is only white space. *)
Lemma trim_empty_iff s : trim s = "" <-> all_space s = true.
Proof.
  unfold trim. split.
  - intros H. destruct (all_space s) eqn:Hs; [done|].
    destruct (trimStart_not_all_space s Hs) as (c & t & Ht & Hc).
    rewrite Ht in H. by apply trimEnd_nonspace_head in H.
  - intros H. by rewrite trimStart_all_space.
Qed.

Lemma is_space_lower_char c : is_space (lower_char c) = is_space c.
Proof.
  unfold lower_char. destruct (is_upper c) eqn:Hu; [|done].
  destruct c as [[] [] [] [] [] [] [] []]; vm_compute in Hu |- *;
    congruence.
Qed.

Lemma all_space_toLowerCase s : all_space (toLowerCase s) = all_space s.
Proof.
  induction s as [|c s IH]; simpl; [done|].
  by rewrite is_space_lower_char, IH.
Qed.

End JsStringFacts.

(** ** Lists *)

Lemma filter_none {A} (f : A -> bool) (l : list A) :
  Forall (fun a => f a = false) l -> List.filter f l = [].
Proof.
  induction 1 as [|x l Hx _ IH]; simpl; [done|]. by rewrite Hx.
Qed.

Lemma filter_all {A} (f : A -> bool) (l : list A) :
  Forall (fun a => f a = true) l -> List.filter f l = l.
Proof.
  induction 1 as [|x l Hx _ IH]; simpl; [done|]. by rewrite Hx, IH.
Qed.

Lemma Forall_filter_true {A} (f : A -> bool) (l : list A) :
  Forall (fun a => f a = true) (List.filter f l).
Proof.
  induction l as [|x l IH]; simpl; [constructor|].
  destruct (f x) eqn:Hx; [by constructor | done].
Qed.

Lemma StronglySorted_weaken {A} (R R' : A -> A -> Prop) (l : list A) :
  (forall a b, R a b -> R' a b) ->
  StronglySorted R l -> StronglySorted R' l.
Proof.
  intros HR. induction 1 as [|x l Hs IH Hx]; constructor; [done|].
  eapply Forall_impl; [exact Hx|]. intros b. apply HR.
Qed.

(** ** Stable sorting *)

Section StableSortFacts.
Context {A : Type}.
Variable cmp : A -> A -> Z.

Local Abbreviation sort_insert := (sort_insert cmp).
Local Abbreviation sorted_by := (sorted_by cmp).

Lemma sort_insert_perm x l : Permutation (sort_insert x l) (x :: l).
Proof.
  induction l as [|y l IH]; simpl; [done|].
  destruct (cmp x y <=? 0); [done|].
  rewrite IH. apply perm_swap.
Qed.

Lemma sorted_by_perm l : Permutation (sorted_by l) l.
Proof.
  induction l as [|x l IH]; simpl; [done|].
  by rewrite sort_insert_perm, IH.
Qed.

Lemma sorted_by_length l : length (sorted_by l) = length l.
Proof. apply Permutation_length, sorted_by_perm. Qed.

Variable key : A -> Z.

Local Abbreviation keyed_on := (keyed_on cmp key).
Local Abbreviation le_key := (le_key key).
Local Abbreviation has_key := (has_key key).

Lemma keyed_on_perm l l' : Permutation l l' -> keyed_on l -> keyed_on l'.
Proof.
  intros HP H a b Ha Hb.
  apply H; eapply Permutation_in; try apply Permutation_sym, HP; done.
Qed.

Lemma keyed_on_tail x l : keyed_on (x :: l) -> keyed_on l.
Proof. intros H a b Ha Hb. apply H; by right. Qed.

Lemma keyed_on_cons_perm x l l' :
  Permutation l l' -> keyed_on (x :: l) -> keyed_on (x :: l').
Proof. intros HP. apply keyed_on_perm. by constructor. Qed.

Lemma sort_insert_sorted x l :
  keyed_on (x :: l) ->
  StronglySorted le_key l -> StronglySorted le_key (sort_insert x l).
Proof.
  intros Hk Hs. induction Hs as [|y l Hs IH Hy]; simpl.
  - repeat constructor.
  - assert (Hxy : cmp x y <= 0 <-> key x <= key y)
      by (apply Hk; simpl; auto).
    destruct (Z.leb_spec (cmp x y) 0) as [Hle | Hgt].
    + apply Hxy in Hle. constructor; [by constructor|].
      constructor; [done|].
      eapply Forall_impl; [exact Hy|].
      intros b Hb. unfold le_key in *. lia.
    + assert (key y < key x) by lia.
      constructor.
      * apply IH. intros a b Ha Hb. apply Hk; simpl in *; tauto.
      * eapply Permutation_Forall;
          [apply Permutation_sym, sort_insert_perm|].
        constructor; [unfold le_key; lia | done].
Qed.

Lemma sorted_by_sorted l : keyed_on l -> StronglySorted le_key (sorted_by l).
Proof.
  induction l as [|x l IH]; intros Hk; simpl; [constructor|].
  apply sort_insert_sorted.
  - eapply keyed_on_cons_perm; [apply Permutation_sym, sorted_by_perm|done].
  - apply IH. by eapply keyed_on_tail.
Qed.

Lemma sort_insert_has_key v x l :
  keyed_on (x :: l) ->
  List.filter (has_key v) (sort_insert x l)
  = List.filter (has_key v) (x :: l).
Proof.
  induction l as [|y l IH]; intros Hk; [done|]. cbn [sort_insert].
  assert (Hxy : cmp x y <= 0 <-> key x <= key y)
    by (apply Hk; simpl; auto).
  destruct (Z.leb_spec (cmp x y) 0) as [Hle | Hgt]; [done|].
  assert (key y < key x) by lia.
  cbn [List.filter]. rewrite IH.
  - cbn [List.filter]. unfold has_key.
    destruct (Z.eqb_spec (key y) v), (Z.eqb_spec (key x) v); (lia || done).
  - intros a b Ha Hb. apply Hk; simpl in *; tauto.
Qed.

(** Stability: the elements of one key keep the order of the input. *)
Lemma sorted_by_stable v l :
  keyed_on l ->
  List.filter (has_key v) (sorted_by l) = List.filter (has_key v) l.
Proof.
  induction l as [|x l IH]; intros Hk; [done|]. cbn [sorted_by foldr].
  change (foldr sort_insert [] l) with (sorted_by l).
  rewrite sort_insert_has_key.
  - cbn [List.filter]. rewrite IH; [done|]. by eapply keyed_on_tail.
  - eapply keyed_on_cons_perm; [apply Permutation_sym, sorted_by_perm|done].
Qed.

(** A list sorted by key is its elements below [v], then those of key
    [v], then those above [v]. *)
Lemma sorted_split v l :
  StronglySorted le_key l ->
  l = List.filter (fun a => key a <? v) l
      ++ List.filter (has_key v) l
      ++ List.filter (fun a => v <? key a) l.
Proof.
  induction 1 as [|x l Hs IH Hx]; [done|]. cbn [List.filter].
  unfold has_key at 1.
  destruct (Z.ltb_spec (key x) v) as [Hlt | Hge].
  - destruct (Z.eqb_spec (key x) v); [lia|].
    destruct (Z.ltb_spec v (key x)); [lia|].
    simpl. by rewrite <- IH.
  - assert (Hnil : List.filter (fun a => key a <? v) l = []).
    { apply filter_none. eapply Forall_impl; [exact Hx|].
      intros b Hb. unfold le_key in Hb. apply Z.ltb_ge. lia. }
    rewrite Hnil in IH |- *. simpl in IH |- *.
    destruct (Z.eqb_spec (key x) v) as [He | Hne].
    + destruct (Z.ltb_spec v (key x)); [lia|]. simpl. by rewrite <- IH.
    + destruct (Z.ltb_spec v (key x)); [|lia].
      assert (Hnil' : List.filter (has_key v) l = []).
      { apply filter_none. eapply Forall_impl; [exact Hx|].
        intros b Hb. unfold le_key in Hb. unfold has_key.
        apply Z.eqb_neq. lia. }
      rewrite Hnil' in IH |- *. simpl in IH |- *. by rewrite <- IH.
Qed.

Lemma has_key_self a : has_key (key a) a = true.
Proof. apply Z.eqb_refl. Qed.

Lemma has_key_other v a : key a <> v -> has_key v a = false.
Proof. apply Z.eqb_neq. Qed.

Lemma filter_head_In (f : A -> bool) (l t : list A) z :
  List.filter f l = z :: t -> In z l /\ f z = true.
Proof.
  intros H. apply List.filter_In. rewrite H. by left.
Qed.

(** A list sorted by key is determined by the sequences of its elements
    of each key: two stable sorts of one input agree. *)
Lemma stable_sorted_unique l1 l2 :
  StronglySorted le_key l1 -> StronglySorted le_key l2 ->
  (forall v, List.filter (has_key v) l1 = List.filter (has_key v) l2) ->
  l1 = l2.
Proof.
  revert l2. induction l1 as [|x l1 IH]; intros [|y l2] H1 H2 Hf.
  - reflexivity.
  - specialize (Hf (key y)). cbn [List.filter] in Hf.
    by rewrite has_key_self in Hf.
  - specialize (Hf (key x)). cbn [List.filter] in Hf.
    by rewrite has_key_self in Hf.
  - apply StronglySorted_inv in H1 as [H1 Hx].
    apply StronglySorted_inv in H2 as [H2 Hy].
    rewrite List.Forall_forall in Hx, Hy.
    destruct (Z.lt_trichotomy (key x) (key y)) as [Hlt | [Heq | Hgt]].
    + exfalso. specialize (Hf (key x)). cbn [List.filter] in Hf.
      rewrite has_key_self, (has_key_other (key x) y) in Hf by lia.
      symmetry in Hf. apply filter_head_In in Hf as [Hin _].
      apply Hy in Hin. unfold le_key in Hin. lia.
    + pose proof (Hf (key x)) as Hhead. cbn [List.filter] in Hhead.
      rewrite has_key_self, Heq, has_key_self in Hhead.
      injection Hhead as -> _.
      f_equal. apply IH; [done | done |].
      intros v. specialize (Hf v). cbn [List.filter] in Hf.
      destruct (has_key v y); [by injection Hf | done].
    + exfalso. specialize (Hf (key y)). cbn [List.filter] in Hf.
      rewrite has_key_self, (has_key_other (key y) x) in Hf by lia.
      apply filter_head_In in Hf as [Hin _].
      apply Hx in Hin. unfold le_key in Hin. lia.
Qed.

(** Whatever algorithm the engine runs, a sorted and stable result is the
    one [sorted_by] computes. *)
Lemma sorted_by_canonical l out :
  keyed_on l ->
  StronglySorted le_key out ->
  (forall v, List.filter (has_key v) out = List.filter (has_key v) l) ->
  out = sorted_by l.
Proof.
  intros Hk Hs Hst. apply stable_sorted_unique; [done | |].
  - by apply sorted_by_sorted.
  - intros v. by rewrite Hst, sorted_by_stable.
Qed.

End StableSortFacts.

(** ** The local filter/sort view *)

Section LocalViewFacts.
Import JsString ModifyProductsList.

Lemma field_includes_spec field q :
  field_includes field q = true <-> appears_in q field.
Proof.
  unfold field_includes, appears_in. destruct field as [s|].
  - rewrite includes_spec. split; [eauto|].
    intros (s' & [= <-] & H). exact H.
  - split; [done | intros (s & H & _); discriminate].
Qed.

Lemma matchesSearch_spec st product :
  matchesSearch st product = true
  <-> all_space (searchQuery st) = true
      \/ text_matches (searchQuery st) product.
Proof.
  unfold matchesSearch, text_matches.
  rewrite !orb_true_iff, !field_includes_spec, String.eqb_eq,
    trim_empty_iff, all_space_toLowerCase.
  tauto.
Qed.

Lemma matchesCategory_spec st product :
  matchesCategory st product = true
  <-> category_matches (selectedCategory st) product.
Proof.
  unfold matchesCategory, category_matches.
  rewrite orb_true_iff, String.eqb_eq.
  destruct (category product) as [c|].
  - rewrite String.eqb_eq. split; (intros [H | H]; [by left | right]);
      congruence.
  - split; (intros [H | H]; [by left | discriminate]).
Qed.

Lemma price_or_0_default a : price_or_0 a = default 0 (price a).
Proof.
  unfold price_or_0. destruct (price a) as [v|]; simpl; [|done].
  destruct (Z.eqb_spec v 0); congruence.
Qed.

Lemma price_or_0_absent a : price a = None -> price_or_0 a = 0.
Proof. intros H. by rewrite price_or_0_default, H. Qed.

(** *** The comparator, mode by mode *)

Lemma sort_callback_price_asc st a b :
  sortOrder st = "price_asc" ->
  sort_callback st a b = price_or_0 a - price_or_0 b.
Proof. unfold sort_callback. by intros ->. Qed.

Lemma sort_callback_price_desc st a b :
  sortOrder st = "price_desc" ->
  sort_callback st a b = price_or_0 b - price_or_0 a.
Proof. unfold sort_callback. by intros ->. Qed.

Lemma sort_callback_newest st a b :
  sortOrder st = "newest" -> sort_callback st a b = time_diff b a.
Proof. unfold sort_callback. by intros ->. Qed.

Lemma sort_callback_oldest st a b :
  sortOrder st = "oldest" -> sort_callback st a b = time_diff a b.
Proof. unfold sort_callback. by intros ->. Qed.

Lemma sort_callback_default st a b :
  default_mode st ->
  sort_callback st a b
  = if is_draft a && negb (is_draft b) then -1
    else if negb (is_draft a) && is_draft b then 1 else 0.
Proof.
  intros (H1 & H2 & H3 & H4). unfold sort_callback.
  apply String.eqb_neq in H1, H2, H3, H4. by rewrite H1, H2, H3, H4.
Qed.

Lemma time_diff_valid a b :
  has_time a -> has_time b -> time_diff a b = getTime a - getTime b.
Proof.
  unfold has_time, time_diff, getTime. by intros [ta ->] [tb ->].
Qed.

Lemma keyed_price_asc st l :
  sortOrder st = "price_asc" -> keyed_on (sort_callback st) price_or_0 l.
Proof.
  intros H a b _ _. rewrite sort_callback_price_asc by done. lia.
Qed.

Lemma keyed_price_desc st l :
  sortOrder st = "price_desc" ->
  keyed_on (sort_callback st) (fun a => - price_or_0 a) l.
Proof.
  intros H a b _ _. rewrite sort_callback_price_desc by done. lia.
Qed.

Lemma keyed_newest st l :
  sortOrder st = "newest" -> Forall has_time l ->
  keyed_on (sort_callback st) (fun a => - getTime a) l.
Proof.
  intros H Hl a b Ha Hb. rewrite List.Forall_forall in Hl.
  rewrite sort_callback_newest, time_diff_valid by auto. lia.
Qed.

Lemma keyed_oldest st l :
  sortOrder st = "oldest" -> Forall has_time l ->
  keyed_on (sort_callback st) getTime l.
Proof.
  intros H Hl a b Ha Hb. rewrite List.Forall_forall in Hl.
  rewrite sort_callback_oldest, time_diff_valid by auto. lia.
Qed.

Lemma keyed_default st l :
  default_mode st -> keyed_on (sort_callback st) draft_rank l.
Proof.
  intros H a b _ _. rewrite sort_callback_default by done.
  unfold draft_rank. destruct (is_draft a), (is_draft b); simpl; lia.
Qed.

Lemma Forall_has_time_filter f l :
  Forall has_time l -> Forall has_time (List.filter f l).
Proof.
  rewrite !List.Forall_forall. intros H a Ha.
  apply List.filter_In in Ha. apply H, Ha.
Qed.

End LocalViewFacts.

(** ** Claims about the local filter/sort view *)

Section LocalViewClaims.
Import JsString ModifyProductsList.

(** C3, as amended.  A product passes the filter of the local view if and
    only if (the search text is empty or holds white space only, or it
    appears, ignoring case, in the product's title, in the owner's
    username or in the owner's full name) and (the selected category is
    "all" or equals the product's category exactly). *)
Theorem local_filter_passes_iff (st : State) (product : Product) :
  filter_callback st product = true
  <-> (all_space (searchQuery st) = true
       \/ text_matches (searchQuery st) product)
      /\ category_matches (selectedCategory st) product.
Proof.
  unfold filter_callback.
  by rewrite andb_true_iff, matchesSearch_spec, matchesCategory_spec.
Qed.

(** C3 as stated fails: with a search text of one space, a product whose
    title, username and full name hold no space passes the filter of the
    code, while the search text is neither empty nor found in a field. *)
Lemma local_filter_blank_search_counterexample :
  let st := {| searchQuery := " "; selectedCategory := "all";
               sortOrder := "none" |} in
  let product := sample "1" (Some 10) "published" in
  filter_callback st product = true /\ ~ spec_passes st product.
Proof.
  split; [reflexivity|].
  intros [[H | H] _]; [discriminate|].
  assert (Hno : forall field,
             field_includes field " " = false -> ~ appears_in " " field).
  { intros field Hf Ha. apply field_includes_spec in Ha. congruence. }
  destruct H as [H | [H | H]]; revert H; by apply Hno.
Qed.

(** The empty search text is one of the blank ones, so the filter agrees
    with the specification in that direction. *)
Lemma spec_passes_filter_callback st product :
  spec_passes st product -> filter_callback st product = true.
Proof.
  intros [Hs Hc]. unfold filter_callback.
  rewrite andb_true_iff, matchesSearch_spec, matchesCategory_spec.
  split; [|done]. destruct Hs as [-> | Hs]; [by left | by right].
Qed.

End LocalViewClaims.

(** ** The order of the view *)

Section LocalViewOrder.
Import JsString ModifyProductsList.

Lemma view_perm st products :
  Permutation (view st products) (List.filter (filter_callback st) products).
Proof. apply sorted_by_perm. Qed.

Lemma view_price_asc_sorted st products :
  sortOrder st = "price_asc" ->
  StronglySorted (fun a b => price_or_0 a <= price_or_0 b) (view st products).
Proof. intros H. by apply (sorted_by_sorted _ price_or_0), keyed_price_asc. Qed.

Lemma view_price_desc_sorted st products :
  sortOrder st = "price_desc" ->
  StronglySorted (fun a b => price_or_0 b <= price_or_0 a) (view st products).
Proof.
  intros H.
  eapply StronglySorted_weaken;
    [|by apply (sorted_by_sorted _ (fun a => - price_or_0 a)),
         keyed_price_desc].
  intros a b. unfold le_key. lia.
Qed.

Lemma view_newest_sorted st products :
  sortOrder st = "newest" -> Forall has_time products ->
  StronglySorted (fun a b => getTime b <= getTime a) (view st products).
Proof.
  intros H Ht.
  eapply StronglySorted_weaken;
    [|by apply (sorted_by_sorted _ (fun a => - getTime a)),
         keyed_newest, Forall_has_time_filter].
  intros a b. unfold le_key. lia.
Qed.

Lemma view_oldest_sorted st products :
  sortOrder st = "oldest" -> Forall has_time products ->
  StronglySorted (fun a b => getTime a <= getTime b) (view st products).
Proof.
  intros H Ht.
  by apply (sorted_by_sorted _ getTime), keyed_oldest, Forall_has_time_filter.
Qed.

(** In the default mode the view is the drafts that pass the filter, in
    the order of the input, followed by the other products that pass it,
    in the order of the input. *)
Lemma view_default_partition st products :
  default_mode st ->
  view st products
  = List.filter is_draft (List.filter (filter_callback st) products)
    ++ List.filter (fun a => negb (is_draft a))
         (List.filter (filter_callback st) products).
Proof.
  intros Hd. unfold view.
  set (fl := List.filter (filter_callback st) products).
  pose proof (keyed_default st fl Hd) as Hk.
  pose proof (sorted_by_sorted _ _ _ Hk) as Hs.
  rewrite (sorted_split draft_rank 0 _ Hs) at 1.
  rewrite filter_none.
  2:{ apply List.Forall_forall. intros a _. unfold draft_rank.
      by destruct (is_draft a). }
  simpl. f_equal.
  - rewrite (sorted_by_stable _ _ 0 _ Hk). apply List.filter_ext.
    intros a. unfold has_key, draft_rank. by destruct (is_draft a).
  - rewrite (List.filter_ext (fun a => 0 <? draft_rank a)
               (has_key draft_rank 1)).
    2:{ intros a. unfold has_key, draft_rank. by destruct (is_draft a). }
    rewrite (sorted_by_stable _ _ 1 _ Hk). apply List.filter_ext.
    intros a. unfold has_key, draft_rank. by destruct (is_draft a).
Qed.

Lemma view_default_drafts_first st products :
  default_mode st -> drafts_first (view st products).
Proof.
  intros Hd. rewrite view_default_partition by done.
  eexists _, _. split; [reflexivity|]. split.
  - apply Forall_filter_true.
  - eapply Forall_impl; [apply Forall_filter_true|].
    intros a. simpl. by destruct (is_draft a).
Qed.

End LocalViewOrder.

(** Evaluate the comparisons of closed integers in the goal. *)
Ltac eval_leb :=
  repeat match goal with
         | |- context [?x - ?y <=? 0] =>
             let v := eval vm_compute in (x - y <=? 0) in
             change (x - y <=? 0) with v
         end.

Section LocalViewOrderClaims.
Import JsString ModifyProductsList.

(** C4.  The view holds the products that pass the filter, ordered by the
    comparator: by price ascending under "price_asc", by price descending
    under "price_desc", by creation time descending under "newest", by
    creation time ascending under "oldest" (for products whose creation
    time is a date), and in every other mode with the drafts before the
    products that are not drafts.  In particular three products priced
    10, 30 and 20 come out as 10, 20, 30 under "price_asc" and as
    30, 20, 10 under "price_desc". *)
Theorem local_sort_orders_by_mode (st : State) (products : list Product) :
  Permutation (view st products) (List.filter (filter_callback st) products)
  /\ (sortOrder st = "price_asc" ->
      StronglySorted (fun a b => price_or_0 a <= price_or_0 b)
        (view st products))
  /\ (sortOrder st = "price_desc" ->
      StronglySorted (fun a b => price_or_0 b <= price_or_0 a)
        (view st products))
  /\ (sortOrder st = "newest" -> Forall has_time products ->
      StronglySorted (fun a b => getTime b <= getTime a) (view st products))
  /\ (sortOrder st = "oldest" -> Forall has_time products ->
      StronglySorted (fun a b => getTime a <= getTime b) (view st products))
  /\ (default_mode st -> drafts_first (view st products))
  /\ (forall a b c,
        price a = Some 10 -> price b = Some 30 -> price c = Some 20 ->
        view (with_sortOrder "price_asc" initialState) [a; b; c] = [a; c; b]
        /\ view (with_sortOrder "price_desc" initialState) [a; b; c]
           = [b; c; a]).
Proof.
  split; [apply view_perm|].
  split; [apply view_price_asc_sorted|].
  split; [apply view_price_desc_sorted|].
  split; [apply view_newest_sorted|].
  split; [apply view_oldest_sorted|].
  split; [apply view_default_drafts_first|].
  intros a b c Ha Hb Hc. unfold view.
  rewrite !filter_all by (repeat constructor).
  assert (Pa : price_or_0 a = 10) by (by rewrite price_or_0_default, Ha).
  assert (Pb : price_or_0 b = 30) by (by rewrite price_or_0_default, Hb).
  assert (Pc : price_or_0 c = 20) by (by rewrite price_or_0_default, Hc).
  split; cbn -[sort_callback].
  - repeat (rewrite sort_callback_price_asc by reflexivity;
            rewrite ?Pa, ?Pb, ?Pc; eval_leb; cbn -[sort_callback]).
    reflexivity.
  - repeat (rewrite sort_callback_price_desc by reflexivity;
            rewrite ?Pa, ?Pb, ?Pc; eval_leb; cbn -[sort_callback]).
    reflexivity.
Qed.

(** The four named modes and the default one, on sample data. *)
Lemma local_sort_orders_by_mode_witness :
  let a := sample "a" (Some 10) "published" in
  let b := sample "b" (Some 30) "draft" in
  let c := sample "c" (Some 20) "published" in
  StronglySorted (fun x y => getTime y <= getTime x)
    (view (with_sortOrder "newest" initialState) [a; b; c])
  /\ drafts_first (view initialState [a; b; c])
  /\ view (with_sortOrder "price_asc" initialState) [a; b; c] = [a; c; b].
Proof.
  intros a b c.
  pose proof (local_sort_orders_by_mode
                (with_sortOrder "newest" initialState) [a; b; c])
    as (_ & _ & _ & Hnew & _).
  pose proof (local_sort_orders_by_mode initialState [a; b; c])
    as (_ & _ & _ & _ & _ & Hdef & Hex).
  split; [|split].
  - apply Hnew; [reflexivity|]. repeat constructor; by eexists.
  - apply Hdef. repeat split; discriminate.
  - apply (Hex a b c); reflexivity.
Defined.

(** C8, as amended.  In the default mode of the local view the drafts are
    ordered first, before all the products that are not drafts; each of
    the two groups keeps the order of the input. *)
Theorem local_default_sort_drafts_first
    (st : State) (products : list Product) :
  default_mode st ->
  drafts_first (view st products)
  /\ view st products
     = List.filter is_draft (List.filter (filter_callback st) products)
       ++ List.filter (fun a => negb (is_draft a))
            (List.filter (filter_callback st) products).
Proof.
  intros Hd. split.
  - by apply view_default_drafts_first.
  - by apply view_default_partition.
Qed.

Lemma local_default_sort_drafts_first_witness :
  let a := sample "a" (Some 10) "published" in
  let b := sample "b" (Some 30) "draft" in
  default_mode initialState
  /\ drafts_first (view initialState [a; b])
  /\ view initialState [a; b] = [b; a].
Proof.
  intros a b.
  assert (Hd : default_mode initialState) by (repeat split; discriminate).
  split; [exact Hd|].
  exact (local_default_sort_drafts_first initialState [a; b] Hd).
Defined.

(** C8 as stated fails: a published product followed by a draft comes out
    with the draft first, so the draft is not after the published one. *)
Lemma local_default_sort_drafts_last_counterexample :
  let a := sample "a" (Some 10) "published" in
  let b := sample "b" (Some 30) "draft" in
  default_mode initialState
  /\ view initialState [a; b] = [b; a]
  /\ ~ drafts_last (view initialState [a; b]).
Proof.
  intros a b. split; [repeat split; discriminate|].
  split; [reflexivity|].
  change (view initialState [a; b]) with [b; a].
  intros (others & drafts & Heq & Ho & Hdr).
  destruct others as [|x others]; simpl in Heq.
  - subst drafts. inversion Hdr as [|? ? _ Hdr']. subst.
    inversion Hdr' as [|? ? Ha _]. discriminate Ha.
  - injection Heq as <- _. inversion Ho as [|? ? Hb _]. discriminate Hb.
Qed.

End LocalViewOrderClaims.

(** ** Absent prices *)

Section AbsentPrices.
Import JsString ModifyProductsList.

Lemma sort_callback_absent_price st a a' b :
  sortOrder st = "price_asc" \/ sortOrder st = "price_desc" ->
  price a = None -> price a' = Some 0 ->
  sort_callback st a b = sort_callback st a' b
  /\ sort_callback st b a = sort_callback st b a'.
Proof.
  intros [H | H] Ha Ha'.
  - rewrite !sort_callback_price_asc by done.
    by rewrite !price_or_0_default, Ha, Ha'.
  - rewrite !sort_callback_price_desc by done.
    by rewrite !price_or_0_default, Ha, Ha'.
Qed.

Lemma view_price_asc_split st products :
  sortOrder st = "price_asc" ->
  exists negatives positives,
    view st products
    = negatives
      ++ List.filter zero_priced (List.filter (filter_callback st) products)
      ++ positives
    /\ Forall (fun a => price_or_0 a < 0) negatives
    /\ Forall (fun a => 0 < price_or_0 a) positives.
Proof.
  intros H. unfold view.
  set (fl := List.filter (filter_callback st) products).
  pose proof (keyed_price_asc st fl H) as Hk.
  pose proof (sorted_by_sorted _ _ _ Hk) as Hs.
  eexists _, _. split.
  - rewrite (sorted_split price_or_0 0 _ Hs) at 1.
    by rewrite (sorted_by_stable _ _ 0 _ Hk).
  - split; (eapply Forall_impl; [apply Forall_filter_true|]);
      intros a; simpl; lia.
Qed.

Lemma view_price_desc_split st products :
  sortOrder st = "price_desc" ->
  exists positives negatives,
    view st products
    = positives
      ++ List.filter zero_priced (List.filter (filter_callback st) products)
      ++ negatives
    /\ Forall (fun a => 0 < price_or_0 a) positives
    /\ Forall (fun a => price_or_0 a < 0) negatives.
Proof.
  intros H. unfold view.
  set (fl := List.filter (filter_callback st) products).
  pose proof (keyed_price_desc st fl H) as Hk.
  pose proof (sorted_by_sorted _ _ _ Hk) as Hs.
  eexists _, _. split.
  - rewrite (sorted_split (fun a => - price_or_0 a) 0 _ Hs) at 1.
    rewrite (sorted_by_stable _ _ 0 _ Hk).
    do 2 f_equal. apply List.filter_ext. intros a.
    unfold has_key, zero_priced.
    destruct (Z.eqb_spec (- price_or_0 a) 0), (Z.eqb_spec (price_or_0 a) 0);
      (lia || done).
  - split; (eapply Forall_impl; [apply Forall_filter_true|]);
      intros a; simpl; lia.
Qed.

Lemma nonnegative_view st products :
  Forall (fun a => 0 <= price_or_0 a) products ->
  Forall (fun a => 0 <= price_or_0 a) (view st products).
Proof.
  intros H. eapply Permutation_Forall; [apply Permutation_sym, view_perm|].
  rewrite List.Forall_forall in *. intros a Ha.
  apply List.filter_In in Ha. apply H, Ha.
Qed.

Lemma no_negative_prefix (negatives rest : list Product) :
  Forall (fun a => 0 <= price_or_0 a) (negatives ++ rest) ->
  Forall (fun a => price_or_0 a < 0) negatives -> negatives = [].
Proof.
  destruct negatives as [|x negatives]; [done|].
  intros H1 H2. inversion H1; inversion H2; subst. lia.
Qed.

Lemma no_negative_suffix (rest negatives : list Product) :
  Forall (fun a => 0 <= price_or_0 a) (rest ++ negatives) ->
  Forall (fun a => price_or_0 a < 0) negatives -> negatives = [].
Proof.
  destruct negatives as [|x negatives]; [done|].
  intros H1 H2. apply Forall_app in H1 as [_ H1].
  inversion H1; inversion H2; subst. lia.
Qed.

Lemma positive_not_zero_priced (l : list Product) :
  Forall (fun a => 0 < price_or_0 a) l ->
  Forall (fun a => zero_priced a = false) l.
Proof.
  intros H. eapply Forall_impl; [exact H|].
  intros a Ha. unfold zero_priced. apply Z.eqb_neq. simpl in Ha. lia.
Qed.

(** C10, as amended.  Under "price_asc" and "price_desc" a product whose
    price is absent is compared as if its price were 0, so for every
    collection such products are ordered together with the products
    priced 0, in the order of the input: after the products of negative
    price and before those of positive price under "price_asc", the
    other way round under "price_desc"; hence first under "price_asc" and
    last under "price_desc" when no product has a negative price. *)
Theorem local_price_sort_absent_as_zero
    (st : State) (products : list Product) :
  (sortOrder st = "price_asc" \/ sortOrder st = "price_desc" ->
   forall a a' b,
     price a = None -> price a' = Some 0 ->
     sort_callback st a b = sort_callback st a' b
     /\ sort_callback st b a = sort_callback st b a')
  /\ (sortOrder st = "price_asc" ->
      exists negatives positives,
        view st products
        = negatives
          ++ List.filter zero_priced
               (List.filter (filter_callback st) products)
          ++ positives
        /\ Forall (fun a => price_or_0 a < 0) negatives
        /\ Forall (fun a => 0 < price_or_0 a) positives)
  /\ (sortOrder st = "price_desc" ->
      exists positives negatives,
        view st products
        = positives
          ++ List.filter zero_priced
               (List.filter (filter_callback st) products)
          ++ negatives
        /\ Forall (fun a => 0 < price_or_0 a) positives
        /\ Forall (fun a => price_or_0 a < 0) negatives)
  /\ (Forall (fun a => 0 <= price_or_0 a) products ->
      (sortOrder st = "price_asc" -> zeros_first (view st products))
      /\ (sortOrder st = "price_desc" -> zeros_last (view st products))).
Proof.
  split; [intros H a a' b; by apply sort_callback_absent_price|].
  split; [apply view_price_asc_split|].
  split; [apply view_price_desc_split|].
  intros Hnn. pose proof (nonnegative_view st products Hnn) as Hv.
  split; intros H.
  - destruct (view_price_asc_split st products H)
      as (negatives & positives & Heq & Hneg & Hpos).
    rewrite Heq in Hv |- *.
    rewrite (no_negative_prefix _ _ Hv Hneg). simpl.
    eexists _, _. split; [reflexivity|]. split.
    + apply Forall_filter_true.
    + by apply positive_not_zero_priced.
  - destruct (view_price_desc_split st products H)
      as (positives & negatives & Heq & Hpos & Hneg).
    rewrite Heq in Hv |- *. rewrite app_assoc in Hv.
    rewrite (no_negative_suffix _ _ Hv Hneg), app_nil_r.
    eexists _, _. split; [reflexivity|]. split.
    + by apply positive_not_zero_priced.
    + apply Forall_filter_true.
Qed.

Lemma local_price_sort_absent_as_zero_witness :
  let a := sample "a" (Some 10) "published" in
  let b := sample "b" None "published" in
  let c := sample "c" (Some 0) "published" in
  zeros_first (view (with_sortOrder "price_asc" initialState) [a; b; c])
  /\ zeros_last (view (with_sortOrder "price_desc" initialState) [a; b; c]).
Proof.
  intros a b c.
  assert (Hnn : Forall (fun x => 0 <= price_or_0 x) [a; b; c])
    by (repeat constructor; vm_compute; discriminate).
  split.
  - apply (local_price_sort_absent_as_zero
             (with_sortOrder "price_asc" initialState) [a; b; c]);
      [exact Hnn | reflexivity].
  - apply (local_price_sort_absent_as_zero
             (with_sortOrder "price_desc" initialState) [a; b; c]);
      [exact Hnn | reflexivity].
Defined.

(** C10 as stated fails: next to a product priced -5, the product whose
    price is absent is not first under "price_asc". *)
Lemma local_price_sort_absent_first_counterexample :
  let a := sample "a" None "published" in
  let b := sample "b" (Some (-5)) "published" in
  let st := with_sortOrder "price_asc" initialState in
  view st [a; b] = [b; a] /\ ~ zeros_first (view st [a; b]).
Proof.
  intros a b st. split; [reflexivity|].
  change (view st [a; b]) with [b; a].
  intros (zeros & rest & Heq & Hz & Hr).
  destruct zeros as [|x zeros]; simpl in Heq.
  - subst rest. inversion Hr as [|? ? _ Hr']. subst.
    inversion Hr' as [|? ? Ha _]. discriminate Ha.
  - injection Heq as <- _. inversion Hz as [|? ? Hb _]. discriminate Hb.
Qed.

End AbsentPrices.

(** ** The input array *)

Section InputArray.
Import JsString ModifyProductsList.

Lemma fresh_ref_unused (s : JsArray.store) : s !! fresh (dom s) = None.
Proof. apply not_elem_of_dom, is_fresh. Qed.

(** [filter] returns a reference that was not in use. *)
Lemma filter_allocates f arr (s : JsArray.store) l :
  s !! arr = Some l ->
  exists r,
    JsArray.filter f arr s = Some (r, <[r := List.filter f l]> s)
    /\ s !! r = None.
Proof.
  intros H. unfold JsArray.filter. rewrite H.
  eexists. split; [reflexivity | apply fresh_ref_unused].
Qed.

(** [sort] overwrites the array it is called on. *)
Lemma sort_in_place cmp arr (s : JsArray.store) l :
  s !! arr = Some l ->
  JsArray.sort cmp arr s = Some (arr, <[arr := sorted_by cmp l]> s).
Proof. intros H. unfold JsArray.sort. by rewrite H. Qed.

(** Sorting the input array itself would have reordered it. *)
Example sort_on_input_mutates :
  let a := sample "a" (Some 30) "published" in
  let b := sample "b" (Some 10) "published" in
  let st := with_sortOrder "price_asc" initialState in
  exists s',
    JsArray.sort (sort_callback st) 1%positive {[ 1%positive := [a; b] ]}
    = Some (1%positive, s')
    /\ s' !! 1%positive = Some [b; a].
Proof.
  intros a b st. eexists. split.
  - apply sort_in_place, lookup_singleton_eq.
  - by rewrite lookup_insert_eq.
Qed.

(** C9.  Computing the filtered and sorted view leaves the input array
    unchanged: after the derivation the caller's [products] array holds
    the same elements in the same order, every other array of the store
    is untouched as well, and the view is a new array. *)
Theorem local_view_leaves_input_unchanged
    (st : State) (products : JsArray.ref) (s : JsArray.store)
    (l : list Product) :
  s !! products = Some l ->
  exists r s',
    filteredAndSortedProducts st products s = Some (r, s')
    /\ s' !! products = Some l
    /\ r <> products
    /\ s' !! r = Some (view st l)
    /\ (forall r0, r0 <> r -> s' !! r0 = s !! r0).
Proof.
  intros H. unfold filteredAndSortedProducts, JsArray.bind.
  destruct (filter_allocates (filter_callback st) products s l H)
    as (r & -> & Hr).
  assert (Hne : r <> products) by congruence.
  rewrite (sort_in_place _ r _ (List.filter (filter_callback st) l))
    by apply lookup_insert_eq.
  exists r, (<[r := view st l]> (<[r := List.filter (filter_callback st) l]> s)).
  split; [reflexivity|]. split; [|split; [done|split]].
  - by rewrite !lookup_insert_ne.
  - apply lookup_insert_eq.
  - intros r0 Hr0. by rewrite !lookup_insert_ne.
Qed.

Lemma local_view_leaves_input_unchanged_witness :
  let a := sample "a" (Some 30) "published" in
  let b := sample "b" (Some 10) "published" in
  let st := with_sortOrder "price_asc" initialState in
  let s : JsArray.store := {[ 1%positive := [a; b] ]} in
  exists r s',
    filteredAndSortedProducts st 1%positive s = Some (r, s')
    /\ s' !! 1%positive = Some [a; b]
    /\ r <> 1%positive
    /\ s' !! r = Some [b; a]
    /\ (forall r0, r0 <> r -> s' !! r0 = s !! r0).
Proof.
  intros a b st s.
  apply (local_view_leaves_input_unchanged st 1%positive s [a; b]).
  reflexivity.
Defined.

End InputArray.

(** ** The paginated fetcher *)

(** Split on every condition the goal branches on. *)
Ltac split_conditions :=
  repeat match goal with
         | |- context [if ?b then _ else _] => destruct b
         end.

Section FetcherFacts.
Import JsString UseProducts.

Lemma range_with_clause c q : range (with_clause c q) = range q.
Proof. reflexivity. Qed.

Lemma range_with_order column asc q : range (with_order column asc q) = range q.
Proof. reflexivity. Qed.

Lemma fetchProducts_query_range supabase p pageParam :
  range (fetchProducts_query supabase p pageParam)
  = (default 0 pageParam * limit p,
     default 0 pageParam * limit p + (limit p - 1)).
Proof.
  unfold fetchProducts_query. cbv zeta.
  destruct (auth_getUser supabase); split_conditions; reflexivity.
Qed.

(** The key is the same list for two tuples exactly when they agree on
    the seven parameters it lists. *)
Lemma queryKey_eq_iff p1 p2 :
  queryKey p1 = queryKey p2 <-> same_but_limit p1 p2.
Proof.
  unfold queryKey, same_but_limit. split.
  - intros [= -> -> -> -> -> -> ->]. repeat split.
  - intros (-> & -> & -> & -> & -> & -> & ->). reflexivity.
Qed.

Lemma queryKey_ignores_limit n p : queryKey (with_limit n p) = queryKey p.
Proof. reflexivity. Qed.

(** The three cases in which [prefetchNextPage] makes no call. *)
Lemma prefetchNextPage_none_iff p result :
  prefetchNextPage p result = None
  <-> result_data result = None
      \/ isFetchingNextPage result = true
      \/ hasNextPage result = false.
Proof.
  unfold prefetchNextPage.
  destruct (result_data result) as [d|]; [|intuition].
  destruct (isFetchingNextPage result), (hasNextPage result); simpl;
    intuition congruence.
Qed.

(** Whatever has been fetched, the call carries page parameter 0. *)
Lemma prefetchNextPage_some p result options :
  prefetchNextPage p result = Some options ->
  options = {| prefetch_queryKey := queryKey p;
               prefetch_initialPageParam := 0 |}.
Proof.
  unfold prefetchNextPage.
  destruct (result_data result) as [d|]; [|done].
  destruct (negb (isFetchingNextPage result) && hasNextPage result); [|done].
  by intros [= <-].
Qed.

Lemma user_clause_absent supabase p pageParam :
  auth_getUser supabase = None ->
  forall v,
    ~ In (Eq "user_id" v) (clauses (fetchProducts_query supabase p pageParam)).
Proof.
  intros Hu v. unfold fetchProducts_query. cbv zeta. rewrite Hu.
  split_conditions; simpl; intuition discriminate.
Qed.

Lemma user_clause_present supabase p pageParam user :
  userOnly p = true -> auth_getUser supabase = Some user ->
  In (Eq "user_id" (VString (auth_id user)))
     (clauses (fetchProducts_query supabase p pageParam)).
Proof.
  intros Hp Hu. unfold fetchProducts_query. cbv zeta. rewrite Hp, Hu.
  split_conditions; simpl; tauto.
Qed.

Lemma userOnly_without_identity supabase p pageParam :
  auth_getUser supabase = None ->
  fetchProducts_query supabase p pageParam
  = fetchProducts_query supabase (with_userOnly false p) pageParam.
Proof.
  intros Hu. unfold fetchProducts_query. cbv zeta. rewrite Hu. simpl.
  by destruct (userOnly p).
Qed.

End FetcherFacts.

Section FetcherClaims.
Import JsString UseProducts.

(** C1.  For every page index and every page size, [fetchProducts]
    requests exactly the inclusive, zero-based row range
    [pageIndex * limit, pageIndex * limit + limit - 1] from the remote
    store; with no page parameter it requests page 0. *)
Theorem fetchProducts_requests_page_range
    (supabase : Supabase) (p : Params) (pageIndex : Z) :
  range (fetchProducts_query supabase p (Some pageIndex))
  = (pageIndex * limit p, pageIndex * limit p + limit p - 1)
  /\ range (fetchProducts_query supabase p None) = (0, limit p - 1).
Proof.
  rewrite !fetchProducts_query_range. simpl. split; f_equal; lia.
Qed.

(** C2.  The next page parameter is undefined if and only if the last
    page is strictly shorter than the page size; otherwise it is the
    number of pages fetched so far. *)
Theorem getNextPageParam_short_page
    (p : Params) (lastPage : list Product) (allPages : list (list Product)) :
  (getNextPageParam p lastPage allPages = None
   <-> Z.of_nat (length lastPage) < limit p)
  /\ (~ Z.of_nat (length lastPage) < limit p ->
      getNextPageParam p lastPage allPages
      = Some (Z.of_nat (length allPages))).
Proof.
  unfold getNextPageParam.
  destruct (Z.ltb_spec (Z.of_nat (length lastPage)) (limit p)); split;
    try done; try lia.
  split; [done | lia].
Qed.

Lemma getNextPageParam_short_page_witness :
  getNextPageParam sampleParams fullPage [fullPage; fullPage] = Some 2
  /\ getNextPageParam sampleParams (take 3 fullPage) [fullPage; take 3 fullPage]
     = None.
Proof.
  split.
  - apply (getNextPageParam_short_page sampleParams fullPage
             [fullPage; fullPage]).
    vm_compute. discriminate.
  - apply (getNextPageParam_short_page sampleParams (take 3 fullPage)
             [fullPage; take 3 fullPage]).
    vm_compute. reflexivity.
Defined.

(** C5 on the code: the page size takes no part in the query key.  The
    tuples with page sizes 10 and 20 differ and ask for different rows of
    page 0, yet their keys are equal, so the page cached under the first
    is found under the second. *)
Theorem queryKey_limit_collision :
  let p1 := sampleParams in
  let p2 := with_limit 20 sampleParams in
  let supabase := answering None [] in
  p1 <> p2
  /\ queryKey p1 = queryKey p2
  /\ range (fetchProducts_query supabase p1 (Some 0)) = (0, 9)
  /\ range (fetchProducts_query supabase p2 (Some 0)) = (0, 19).
Proof.
  intros p1 p2 supabase. split; [|by repeat split].
  intros H. apply (f_equal limit) in H. discriminate H.
Qed.

(** C6 on the code: with one page loaded, nothing in flight and a further
    page expected, [prefetchNextPage] does make a call, but the call
    carries page parameter 0 and the key only; the next page index, 1, is
    computed and left unused. *)
Theorem prefetchNextPage_ignores_next_index :
  result_data onePageLoaded
  = Some {| pages := [fullPage]; pageParams := [0] |}
  /\ getNextPageParam sampleParams fullPage [fullPage] = Some 1
  /\ prefetchNextPage sampleParams onePageLoaded
     = Some {| prefetch_queryKey := queryKey sampleParams;
               prefetch_initialPageParam := 0 |}.
Proof. by repeat split. Qed.

(** C7.  With [userOnly] set and an authenticated identity, the query
    carries an equality filter of [user_id] with that identity.  With
    [userOnly] set and no identity, the query carries no filter on
    [user_id]: it is the query built without [userOnly], the fetch has
    the outcome of that query, and it returns the rows whenever the store
    reports no error. *)
Theorem fetchProducts_userOnly_filter
    (supabase : Supabase) (p : Params) (pageParam : option Z) :
  userOnly p = true ->
  (forall user,
     auth_getUser supabase = Some user ->
     In (Eq "user_id" (VString (auth_id user)))
        (clauses (fetchProducts_query supabase p pageParam)))
  /\ (auth_getUser supabase = None ->
      (forall v,
         ~ In (Eq "user_id" v)
              (clauses (fetchProducts_query supabase p pageParam)))
      /\ fetchProducts_query supabase p pageParam
         = fetchProducts_query supabase (with_userOnly false p) pageParam
      /\ fetchProducts supabase p pageParam
         = fetchProducts supabase (with_userOnly false p) pageParam
      /\ (error (execute supabase
                   (fetchProducts_query supabase p pageParam)) = None ->
          fetchProducts supabase p pageParam
          = inl (data (execute supabase
                         (fetchProducts_query supabase p pageParam))))).
Proof.
  intros Hp. split.
  - intros user Hu. by apply user_clause_present.
  - intros Hu. split; [by apply user_clause_absent|].
    split; [by apply userOnly_without_identity|]. split.
    + unfold fetchProducts. by rewrite <- userOnly_without_identity.
    + intros He. unfold fetchProducts. by rewrite He.
Qed.

Lemma fetchProducts_userOnly_filter_witness :
  let p := with_userOnly true sampleParams in
  In (Eq "user_id" (VString "u1"))
     (clauses (fetchProducts_query
                 (answering (Some {| auth_id := "u1" |}) fullPage) p (Some 0)))
  /\ fetchProducts (answering None fullPage) p (Some 0) = inl fullPage.
Proof.
  intros p. split.
  - destruct (fetchProducts_userOnly_filter
                (answering (Some {| auth_id := "u1" |}) fullPage) p (Some 0)
                eq_refl) as [Hin _].
    apply (Hin {| auth_id := "u1" |}). reflexivity.
  - destruct (fetchProducts_userOnly_filter
                (answering None fullPage) p (Some 0) eq_refl) as [_ Hout].
    destruct (Hout eq_refl) as (_ & _ & _ & Hrows).
    apply Hrows. reflexivity.
Defined.

End FetcherClaims.

(** ** The shape of the remote query *)

Section FetcherShape.
Import JsString UseProducts.

Lemma truthy_iff s : truthy s = true <-> s <> "".
Proof.
  unfold truthy. rewrite negb_true_iff. apply String.eqb_neq.
Qed.

Lemma not_all_iff s : negb (String.eqb s "all") = true <-> s <> "all".
Proof. rewrite negb_true_iff. apply String.eqb_neq. Qed.

Lemma In_clause_when b c0 c :
  In c (clause_when b c0) <-> b = true /\ c = c0.
Proof.
  unfold clause_when. destruct b; simpl; intuition congruence.
Qed.

Lemma clause_when_nil b c0 : clause_when b c0 = [] <-> b = false.
Proof. unfold clause_when. by destruct b. Qed.

Lemma In_user_clause supabase p c :
  In c (user_clause supabase p)
  <-> userOnly p = true
      /\ exists user,
           auth_getUser supabase = Some user
           /\ c = Eq "user_id" (VString (auth_id user)).
Proof.
  unfold user_clause. destruct (userOnly p); [|by intuition].
  destruct (auth_getUser supabase) as [user|]; simpl.
  - split.
    + intros [<- | []]. eauto.
    + intros (_ & user' & [= <-] & ->). by left.
  - split; [done | by intros (_ & user & H & _)].
Qed.

Lemma user_clause_nil supabase p :
  user_clause supabase p = []
  <-> userOnly p = false \/ auth_getUser supabase = None.
Proof.
  unfold user_clause.
  destruct (userOnly p), (auth_getUser supabase); intuition congruence.
Qed.

(** The clauses of the query, in the order the code adds them. *)
Lemma fetchProducts_query_clauses supabase p pageParam :
  clauses (fetchProducts_query supabase p pageParam)
  = clause_when (truthy (searchQuery p))
      (Ilike "title" ("%" +:+ searchQuery p +:+ "%"))
    ++ clause_when (negb (String.eqb (selectedCategory p) "all"))
         (Eq "category" (VString (selectedCategory p)))
    ++ clause_when (truthy (selectedRegion p)
                    && negb (String.eqb (selectedRegion p) "all"))
         (Eq "county" (VString (selectedRegion p)))
    ++ clause_when (truthy (selectedCountry p)
                    && negb (String.eqb (selectedCountry p) "all"))
         (Eq "country_id" (VNumber (selectedCountry p)))
    ++ clause_when (showOnlyPublished p)
         (Eq "product_status" (VString "published"))
    ++ user_clause supabase p.
Proof.
  unfold fetchProducts_query, user_clause. cbv zeta.
  destruct (auth_getUser supabase); split_conditions; reflexivity.
Qed.

Lemma fetchProducts_query_order supabase p pageParam :
  order (fetchProducts_query supabase p pageParam)
  = Some (if String.eqb (sortOrder p) "asc"
          then {| order_column := "price"; ascending := true |}
          else if String.eqb (sortOrder p) "desc"
               then {| order_column := "price"; ascending := false |}
               else {| order_column := "created_at"; ascending := false |}).
Proof.
  unfold fetchProducts_query. cbv zeta.
  destruct (String.eqb (sortOrder p) "asc"),
    (String.eqb (sortOrder p) "desc"); reflexivity.
Qed.

Lemma concat_full_length (p : Params) (allPages : list (list Product)) :
  all_full p allPages ->
  Z.of_nat (length (concat allPages))
  = Z.of_nat (length allPages) * limit p.
Proof.
  induction 1 as [|page allPages Hpage _ IH]; simpl; [done|].
  rewrite length_app. lia.
Qed.

(** X1.  The filters of the remote query are exactly these: a substring
    match of the title when the search text is not empty; equality of the
    category unless it is "all"; equality of the county, and of the
    numeric country id, when the selector is neither empty nor "all";
    equality of the status with "published" when asked for; equality of
    the owner with the authenticated user under [userOnly].  No other
    filter is ever sent. *)
Theorem fetchProducts_filters_characterised
    (supabase : Supabase) (p : Params) (pageParam : option Z) (c : Clause) :
  In c (clauses (fetchProducts_query supabase p pageParam))
  <-> (searchQuery p <> ""
       /\ c = Ilike "title" ("%" +:+ searchQuery p +:+ "%"))
      \/ (selectedCategory p <> "all"
          /\ c = Eq "category" (VString (selectedCategory p)))
      \/ (selectedRegion p <> "" /\ selectedRegion p <> "all"
          /\ c = Eq "county" (VString (selectedRegion p)))
      \/ (selectedCountry p <> "" /\ selectedCountry p <> "all"
          /\ c = Eq "country_id" (VNumber (selectedCountry p)))
      \/ (showOnlyPublished p = true
          /\ c = Eq "product_status" (VString "published"))
      \/ (userOnly p = true
          /\ exists user,
               auth_getUser supabase = Some user
               /\ c = Eq "user_id" (VString (auth_id user))).
Proof.
  rewrite fetchProducts_query_clauses, !in_app_iff, !In_clause_when,
    In_user_clause, !andb_true_iff, !truthy_iff, !not_all_iff.
  tauto.
Qed.

(** X2.  The query carries no filter at all, and so asks for a page of the
    whole table, exactly when the search text is empty, the category is
    "all", the region and the country are empty or "all", only-published
    is off, and [userOnly] is off or nobody is signed in. *)
Theorem fetchProducts_unfiltered_iff
    (supabase : Supabase) (p : Params) (pageParam : option Z) :
  clauses (fetchProducts_query supabase p pageParam) = []
  <-> searchQuery p = ""
      /\ selectedCategory p = "all"
      /\ (selectedRegion p = "" \/ selectedRegion p = "all")
      /\ (selectedCountry p = "" \/ selectedCountry p = "all")
      /\ showOnlyPublished p = false
      /\ (userOnly p = false \/ auth_getUser supabase = None).
Proof.
  rewrite fetchProducts_query_clauses.
  rewrite !app_nil, !clause_when_nil, user_clause_nil,
    !andb_false_iff, !negb_false_iff.
  unfold truthy. rewrite !negb_false_iff, !String.eqb_eq. tauto.
Qed.

(** X3.  Every query is ordered: by price ascending for sort order "asc",
    by price descending for "desc", and by creation time descending for
    every other sort order, whatever its text. *)
Theorem fetchProducts_order_by_sortOrder
    (supabase : Supabase) (p : Params) (pageParam : option Z) :
  (sortOrder p = "asc" ->
   order (fetchProducts_query supabase p pageParam)
   = Some {| order_column := "price"; ascending := true |})
  /\ (sortOrder p = "desc" ->
      order (fetchProducts_query supabase p pageParam)
      = Some {| order_column := "price"; ascending := false |})
  /\ (sortOrder p <> "asc" -> sortOrder p <> "desc" ->
      order (fetchProducts_query supabase p pageParam)
      = Some {| order_column := "created_at"; ascending := false |}).
Proof.
  rewrite fetchProducts_query_order. repeat split.
  - by intros ->.
  - by intros ->.
  - intros H1 H2. apply String.eqb_neq in H1, H2. by rewrite H1, H2.
Qed.

Lemma fetchProducts_order_by_sortOrder_witness :
  order (fetchProducts_query (answering None []) sampleParams (Some 0))
  = Some {| order_column := "created_at"; ascending := false |}.
Proof.
  apply (fetchProducts_order_by_sortOrder (answering None []) sampleParams
           (Some 0)); discriminate.
Defined.

End FetcherShape.

(** ** Pages and the cache key *)

Section FetcherPages.
Import JsString UseProducts.

Lemma page_range supabase p k :
  range (fetchProducts_query supabase p (Some k))
  = (k * limit p, k * limit p + (limit p - 1)).
Proof. apply fetchProducts_query_range. Qed.

(** X4.  The ranges of consecutive pages are adjacent, and for a positive
    page size every row index from 0 on lies in the range of exactly one
    page: paging neither skips a row nor asks for one twice. *)
Theorem fetchProducts_pages_tile_rows (supabase : Supabase) (p : Params) :
  (forall k,
     fst (range (fetchProducts_query supabase p (Some (k + 1))))
     = snd (range (fetchProducts_query supabase p (Some k))) + 1)
  /\ (0 < limit p ->
      forall i, 0 <= i ->
        exists k,
          0 <= k
          /\ fst (range (fetchProducts_query supabase p (Some k))) <= i
             <= snd (range (fetchProducts_query supabase p (Some k)))
          /\ forall k',
               fst (range (fetchProducts_query supabase p (Some k'))) <= i
               <= snd (range (fetchProducts_query supabase p (Some k'))) ->
               k' = k).
Proof.
  split.
  - intros k. rewrite !page_range. simpl. lia.
  - intros Hl i Hi. exists (i / limit p).
    split; [by apply Z.div_pos|]. split.
    + rewrite page_range. simpl.
      pose proof (Z.mul_div_le i (limit p) Hl).
      pose proof (Z.mul_succ_div_gt i (limit p) Hl). lia.
    + intros k'. rewrite page_range. simpl. intros Hk'.
      apply (Z.div_unique i (limit p) k' (i - k' * limit p)); lia.
Qed.

Lemma fetchProducts_pages_tile_rows_witness :
  exists k,
    0 <= k
    /\ fst (range (fetchProducts_query (answering None []) sampleParams
                     (Some k))) <= 25
       <= snd (range (fetchProducts_query (answering None []) sampleParams
                        (Some k)))
    /\ forall k',
         fst (range (fetchProducts_query (answering None []) sampleParams
                       (Some k'))) <= 25
         <= snd (range (fetchProducts_query (answering None []) sampleParams
                          (Some k'))) ->
         k' = k.
Proof.
  apply (fetchProducts_pages_tile_rows (answering None []) sampleParams);
    [reflexivity | discriminate].
Defined.

(** X5.  An empty page ends the pagination exactly when the page size is
    positive.  With a page size of 0 or less the range of every page is
    empty (its end lies before its start) and no page is ever taken for
    the last one: the code has no guard on the page size. *)
Theorem getNextPageParam_nonpositive_limit (supabase : Supabase) (p : Params) :
  (forall allPages, getNextPageParam p [] allPages = None <-> 0 < limit p)
  /\ (limit p <= 0 ->
      (forall k,
         snd (range (fetchProducts_query supabase p (Some k)))
         < fst (range (fetchProducts_query supabase p (Some k))))
      /\ (forall lastPage allPages,
            getNextPageParam p lastPage allPages
            = Some (Z.of_nat (length allPages)))).
Proof.
  split.
  - intros allPages. unfold getNextPageParam.
    change (Z.of_nat (length [])) with 0.
    destruct (Z.ltb_spec 0 (limit p)) as [Hlt | Hge].
    + split; [by intros _ | done].
    + split; [discriminate | lia].
  - intros Hl. split.
    + intros k. rewrite page_range. simpl. lia.
    + intros lastPage allPages. unfold getNextPageParam.
      destruct (Z.ltb_spec (Z.of_nat (length lastPage)) (limit p)); [lia|done].
Qed.

Lemma getNextPageParam_nonpositive_limit_witness :
  let p := with_limit 0 sampleParams in
  range (fetchProducts_query (answering None []) p (Some 3)) = (0, -1)
  /\ getNextPageParam p [] [[]; []] = Some 2.
Proof.
  intros p.
  destruct (getNextPageParam_nonpositive_limit (answering None []) p)
    as [_ H].
  destruct H as [_ Hnext]; [vm_compute; discriminate|].
  split; [reflexivity | apply Hnext].
Defined.

(** X6.  When every page fetched so far is full, the next page parameter
    is defined and the range it leads to starts at the number of rows
    already fetched. *)
Theorem next_page_starts_after_fetched_rows
    (supabase : Supabase) (p : Params)
    (previous : list (list Product)) (lastPage : list Product) :
  all_full p (previous ++ [lastPage]) ->
  exists n,
    getNextPageParam p lastPage (previous ++ [lastPage]) = Some n
    /\ fst (range (fetchProducts_query supabase p (Some n)))
       = Z.of_nat (length (concat (previous ++ [lastPage]))).
Proof.
  intros Hfull. exists (Z.of_nat (length (previous ++ [lastPage]))). split.
  - unfold getNextPageParam.
    apply Forall_app in Hfull as [_ Hlast].
    apply Forall_inv in Hlast.
    destruct (Z.ltb_spec (Z.of_nat (length lastPage)) (limit p)); [lia|done].
  - rewrite page_range. simpl. by rewrite (concat_full_length p).
Qed.

Lemma next_page_starts_after_fetched_rows_witness :
  exists n,
    getNextPageParam sampleParams fullPage ([fullPage] ++ [fullPage]) = Some n
    /\ fst (range (fetchProducts_query (answering None []) sampleParams
                     (Some n)))
       = 20.
Proof.
  apply (next_page_starts_after_fetched_rows (answering None []) sampleParams
           [fullPage] fullPage).
  repeat constructor.
Defined.

(** X7.  An empty region or country selector adds no filter: the query is
    the one built for "all", although the cache key differs from the key
    of "all".  An empty category is not treated so: it filters on the
    category being the empty string. *)
Theorem fetchProducts_empty_selectors
    (supabase : Supabase) (p : Params) (pageParam : option Z) :
  (selectedRegion p = "" ->
   fetchProducts_query supabase p pageParam
   = fetchProducts_query supabase (with_selectedRegion "all" p) pageParam
   /\ queryKey p <> queryKey (with_selectedRegion "all" p))
  /\ (selectedCountry p = "" ->
      fetchProducts_query supabase p pageParam
      = fetchProducts_query supabase (with_selectedCountry "all" p) pageParam
      /\ queryKey p <> queryKey (with_selectedCountry "all" p))
  /\ (selectedCategory p = "" ->
      In (Eq "category" (VString ""))
         (clauses (fetchProducts_query supabase p pageParam))).
Proof.
  split; [|split].
  - intros H. split.
    + unfold fetchProducts_query. cbv zeta. simpl. by rewrite H.
    + unfold queryKey. simpl. rewrite H. discriminate.
  - intros H. split.
    + unfold fetchProducts_query. cbv zeta. simpl. by rewrite H.
    + unfold queryKey. simpl. rewrite H. discriminate.
  - intros H. rewrite fetchProducts_query_clauses, H, !in_app_iff.
    right. left. by left.
Qed.

Lemma fetchProducts_empty_selectors_witness :
  let p := with_selectedRegion "" sampleParams in
  fetchProducts_query (answering None []) p (Some 0)
  = fetchProducts_query (answering None []) sampleParams (Some 0)
  /\ queryKey p <> queryKey sampleParams.
Proof.
  intros p.
  apply (fetchProducts_empty_selectors (answering None []) p (Some 0)).
  reflexivity.
Defined.

(** X8.  [prefetchNextPage] makes no call exactly in three cases: no data
    has loaded, a next page is being fetched, or no next page is
    expected. *)
Theorem prefetchNextPage_noop_iff (p : Params) (result : InfiniteQueryResult) :
  prefetchNextPage p result = None
  <-> result_data result = None
      \/ isFetchingNextPage result = true
      \/ hasNextPage result = false.
Proof. apply prefetchNextPage_none_iff. Qed.

(** X9.  Two parameter tuples have the same cache key exactly when they
    agree on the search text, the category, the region, the country, the
    sort order, only-published and [userOnly]; and every prefetch is made
    under the key of the hook's own tuple. *)
Theorem queryKey_same_iff (p1 p2 : Params) :
  (queryKey p1 = queryKey p2 <-> same_but_limit p1 p2)
  /\ (forall result options,
        prefetchNextPage p1 result = Some options ->
        prefetch_queryKey options = queryKey p1).
Proof.
  split; [apply queryKey_eq_iff|].
  intros result options H.
  by rewrite (prefetchNextPage_some p1 result options H).
Qed.

Lemma queryKey_same_iff_witness :
  prefetch_queryKey
    {| prefetch_queryKey := queryKey sampleParams;
       prefetch_initialPageParam := 0 |}
  = queryKey sampleParams.
Proof.
  destruct (queryKey_same_iff sampleParams sampleParams) as [_ H].
  apply (H onePageLoaded). reflexivity.
Defined.

End FetcherPages.

(** ** More on stable sorting *)

Section StableSortMore.
Context {A : Type}.
Variable cmp : A -> A -> Z.
Variable key : A -> Z.

(** Sorting a second time changes nothing. *)
Lemma sorted_by_idempotent l :
  keyed_on cmp key l ->
  sorted_by cmp (sorted_by cmp l) = sorted_by cmp l.
Proof.
  intros Hk. symmetry. apply (sorted_by_canonical cmp key).
  - eapply keyed_on_perm; [apply Permutation_sym, sorted_by_perm | done].
  - by apply sorted_by_sorted.
  - done.
Qed.

(** A comparator that finds every two elements equal moves nothing. *)
Lemma sorted_by_all_equal l :
  (forall a b, In a l -> In b l -> cmp a b = 0) -> sorted_by cmp l = l.
Proof.
  intros H. symmetry. apply (sorted_by_canonical cmp (fun _ => 0)).
  - intros a b Ha Hb. rewrite (H a b Ha Hb). lia.
  - clear H. induction l as [|x l' IH]; constructor; [done|].
    apply List.Forall_forall. intros b _. unfold le_key. lia.
  - done.
Qed.

Lemma StronglySorted_snoc (R : A -> A -> Prop) l x :
  StronglySorted R l -> Forall (fun y => R y x) l ->
  StronglySorted R (l ++ [x]).
Proof.
  induction 1 as [|y l Hs IH Hy]; intros Hx; simpl.
  - repeat constructor.
  - apply Forall_cons in Hx as [Hyx Hx]. constructor; [by apply IH|].
    apply Forall_app. split; [done | by constructor].
Qed.

Lemma StronglySorted_rev (R : A -> A -> Prop) l :
  StronglySorted R l -> StronglySorted (fun a b => R b a) (rev l).
Proof.
  induction 1 as [|x l Hs IH Hx]; simpl; [constructor|].
  apply StronglySorted_snoc; [done|].
  apply List.Forall_forall. intros y Hy. apply List.in_rev in Hy.
  rewrite List.Forall_forall in Hx. by apply Hx.
Qed.

(** With pairwise distinct keys at most one element has a given key. *)
Lemma distinct_keys_class v l :
  List.NoDup (List.map key l) ->
  (length (List.filter (has_key key v) l) <= 1)%nat.
Proof.
  induction l as [|x l IH]; simpl; [lia|].
  intros Hnd. apply List.NoDup_cons_iff in Hnd as [Hx Hnd].
  destruct (has_key key v x) eqn:Hv; [|by apply IH].
  rewrite filter_none; [simpl; lia|].
  apply List.Forall_forall. intros y Hy.
  destruct (has_key key v y) eqn:Hy'; [|done].
  exfalso. apply Hx. unfold has_key in Hv, Hy'.
  apply Z.eqb_eq in Hv, Hy'. rewrite Hv, <- Hy'. by apply List.in_map.
Qed.

Lemma rev_short (l : list A) : (length l <= 1)%nat -> rev l = l.
Proof. destruct l as [|x [|y l]]; simpl; (done || lia). Qed.

(** With pairwise distinct keys, sorting by the opposite comparator gives
    the reversed list. *)
Lemma sorted_by_opposite (cmp' : A -> A -> Z) l :
  keyed_on cmp key l ->
  keyed_on cmp' (fun a => - key a) l ->
  List.NoDup (List.map key l) ->
  sorted_by cmp' l = rev (sorted_by cmp l).
Proof.
  intros Hk Hk' Hnd.
  apply (stable_sorted_unique (fun a => - key a)).
  - by apply sorted_by_sorted.
  - eapply StronglySorted_weaken;
      [|apply StronglySorted_rev, (sorted_by_sorted cmp key), Hk].
    intros a b. unfold le_key. simpl. lia.
  - intros v. rewrite (sorted_by_stable _ _ v _ Hk'), List.filter_rev.
    assert (Hext : forall a,
               has_key (fun a => - key a) v a = has_key key (- v) a).
    { intros a. unfold has_key.
      destruct (Z.eqb_spec (- key a) v), (Z.eqb_spec (key a) (- v));
        (done || lia). }
    rewrite !(List.filter_ext _ _ Hext).
    rewrite (sorted_by_stable _ _ (- v) _ Hk).
    symmetry. by apply rev_short, distinct_keys_class.
Qed.

End StableSortMore.

(** ** More on the local filter/sort view *)

Section LocalViewMore.
Import JsString ModifyProductsList ModifyProductsListRest.

Lemma In_view st products a :
  In a (view st products)
  <-> In a products /\ filter_callback st a = true.
Proof.
  rewrite <- List.filter_In. split; apply Permutation_in.
  - apply view_perm.
  - apply Permutation_sym, view_perm.
Qed.

Lemma view_passes st products :
  Forall (fun a => filter_callback st a = true) (view st products).
Proof.
  apply List.Forall_forall. intros a Ha.
  apply In_view in Ha as [_ Ha]. exact Ha.
Qed.

Lemma filter_callback_sortOrder o st a :
  filter_callback (with_sortOrder o st) a = filter_callback st a.
Proof. reflexivity. Qed.

(** In every mode whose comparator is consistent on the list, the
    comparator follows an integer key. *)
Lemma view_keyed st l :
  (sortOrder st = "newest" \/ sortOrder st = "oldest" -> Forall has_time l) ->
  exists key, keyed_on (sort_callback st) key l.
Proof.
  intros Ht.
  destruct (String.eqb_spec (sortOrder st) "price_asc") as [H1 | H1];
    [eexists; by apply keyed_price_asc|].
  destruct (String.eqb_spec (sortOrder st) "price_desc") as [H2 | H2];
    [eexists; by apply keyed_price_desc|].
  destruct (String.eqb_spec (sortOrder st) "newest") as [H3 | H3];
    [eexists; apply keyed_newest; auto|].
  destruct (String.eqb_spec (sortOrder st) "oldest") as [H4 | H4];
    [eexists; apply keyed_oldest; auto|].
  eexists. by apply keyed_default.
Qed.

(** X10.  The view holds exactly the products of the input that pass the
    filter: it shows no product that is not in the input or fails the
    filter, drops none that passes, and is never longer than the input. *)
Theorem local_view_members (st : State) (products : list Product) :
  (forall a,
     In a (view st products)
     <-> In a products /\ filter_callback st a = true)
  /\ (length (view st products) <= length products)%nat.
Proof.
  split; [intros a; apply In_view|].
  rewrite (Permutation_length (view_perm st products)).
  apply List.filter_length_le.
Qed.

(** X11.  With a search text that is empty or white space only and the
    category "all", nothing is filtered out: in every sort mode the view
    is a rearrangement of the whole input. *)
Theorem local_view_shows_all (st : State) (products : list Product) :
  all_space (searchQuery st) = true ->
  selectedCategory st = "all" ->
  Permutation (view st products) products
  /\ length (view st products) = length products.
Proof.
  intros Hs Hc.
  assert (Hp : Permutation (view st products) products).
  { rewrite view_perm, filter_all; [done|].
    apply List.Forall_forall. intros a _. unfold filter_callback.
    apply andb_true_iff. split.
    - apply matchesSearch_spec. by left.
    - apply matchesCategory_spec. by left. }
  split; [done | by apply Permutation_length].
Qed.

Lemma local_view_shows_all_witness :
  let a := sample "a" (Some 10) "published" in
  let b := sample "b" None "draft" in
  Permutation (view initialState [a; b]) [a; b]
  /\ length (view initialState [a; b]) = length [a; b].
Proof.
  intros a b. apply (local_view_shows_all initialState [a; b]); reflexivity.
Defined.

(** X12.  The filter ignores the case of the search text and does not
    look at the sort order: two states whose search texts agree once in
    lower case and whose categories agree let the same products pass. *)
Theorem local_filter_ignores_case (st1 st2 : State) (product : Product) :
  toLowerCase (searchQuery st1) = toLowerCase (searchQuery st2) ->
  selectedCategory st1 = selectedCategory st2 ->
  filter_callback st1 product = filter_callback st2 product.
Proof.
  intros Hq Hc.
  unfold filter_callback, matchesSearch, matchesCategory, field_includes.
  by rewrite Hq, Hc.
Qed.

Lemma local_filter_ignores_case_witness :
  let st1 := {| searchQuery := "ALICE"; selectedCategory := "tools";
                sortOrder := "newest" |} in
  let st2 := {| searchQuery := "alice"; selectedCategory := "tools";
                sortOrder := "none" |} in
  filter_callback st1 (sample "a" (Some 10) "published")
  = filter_callback st2 (sample "a" (Some 10) "published").
Proof.
  intros st1 st2.
  apply (local_filter_ignores_case st1 st2); reflexivity.
Defined.

(** X13.  Deriving the view of a view changes nothing: the derivation is
    idempotent (in the two time modes, provided every creation time is a
    date). *)
Theorem local_view_idempotent (st : State) (products : list Product) :
  (sortOrder st = "newest" \/ sortOrder st = "oldest" ->
   Forall has_time products) ->
  view st (view st products) = view st products.
Proof.
  intros Ht. unfold view at 1.
  rewrite (filter_all _ _ (view_passes st products)). unfold view.
  destruct (view_keyed st (List.filter (filter_callback st) products))
    as [key Hk].
  - intros H. by apply Forall_has_time_filter, Ht.
  - by apply (sorted_by_idempotent _ key).
Qed.

Lemma local_view_idempotent_witness :
  let a := sample "a" (Some 30) "published" in
  let b := sample "b" (Some 10) "draft" in
  let st := with_sortOrder "price_asc" initialState in
  view st (view st [a; b]) = view st [a; b].
Proof.
  intros a b st. apply (local_view_idempotent st [a; b]).
  intros [H | H]; discriminate H.
Defined.

(** X14.  The two price modes are stable: the products of one price
    (absent read as 0) appear in the view in the order of the input. *)
Theorem local_price_sort_stable
    (st : State) (products : list Product) (v : Z) :
  sortOrder st = "price_asc" \/ sortOrder st = "price_desc" ->
  List.filter (fun a => price_or_0 a =? v) (view st products)
  = List.filter (fun a => price_or_0 a =? v)
      (List.filter (filter_callback st) products).
Proof.
  intros [H | H]; unfold view.
  - apply (sorted_by_stable _ price_or_0 v), keyed_price_asc, H.
  - assert (Hext : forall a,
               (price_or_0 a =? v)
               = has_key (fun a => - price_or_0 a) (- v) a).
    { intros a. unfold has_key.
      destruct (Z.eqb_spec (price_or_0 a) v),
        (Z.eqb_spec (- price_or_0 a) (- v)); (done || lia). }
    rewrite !(List.filter_ext _ _ Hext).
    apply sorted_by_stable, keyed_price_desc, H.
Qed.

Lemma local_price_sort_stable_witness :
  let a := sample "a" (Some 10) "published" in
  let b := sample "b" (Some 5) "published" in
  let c := sample "c" (Some 10) "draft" in
  let st := with_sortOrder "price_desc" initialState in
  List.filter (fun x => price_or_0 x =? 10) (view st [a; b; c]) = [a; c].
Proof.
  intros a b c st.
  apply (local_price_sort_stable st [a; b; c] 10). by right.
Defined.

(** X15.  The comparator is antisymmetric in every mode: swapping its
    arguments negates its result, so it never contradicts itself on a
    pair of products. *)
Theorem local_sort_callback_antisymmetric (st : State) (a b : Product) :
  sort_callback st b a = - sort_callback st a b.
Proof.
  unfold sort_callback, time_diff.
  destruct (String.eqb (sortOrder st) "price_asc"); [lia|].
  destruct (String.eqb (sortOrder st) "price_desc"); [lia|].
  destruct (String.eqb (sortOrder st) "newest");
    [destruct (created_at a), (created_at b); lia|].
  destruct (String.eqb (sortOrder st) "oldest");
    [destruct (created_at a), (created_at b); lia|].
  by destruct (is_draft a), (is_draft b).
Qed.

(** X16.  When no product has a valid creation date, the two time modes
    leave the filtered products in the order of the input. *)
Theorem local_time_sort_without_dates (st : State) (products : list Product) :
  sortOrder st = "newest" \/ sortOrder st = "oldest" ->
  Forall (fun a => created_at a = None) products ->
  view st products = List.filter (filter_callback st) products.
Proof.
  intros Hmode Hnone. unfold view. apply sorted_by_all_equal.
  intros a b Ha _. apply List.filter_In in Ha as [Ha _].
  rewrite List.Forall_forall in Hnone. specialize (Hnone a Ha).
  destruct Hmode as [H | H].
  - rewrite sort_callback_newest by done. unfold time_diff.
    rewrite Hnone. by destruct (created_at b).
  - rewrite sort_callback_oldest by done. unfold time_diff. by rewrite Hnone.
Qed.

Lemma local_time_sort_without_dates_witness :
  let undated i :=
    {| id := i; title := Some "Lamp"; price := Some 5;
       category := Some "home"; user_id := "u1";
       product_status := Some "published"; created_at := None;
       profiles := None |} in
  view (with_sortOrder "newest" initialState) [undated "a"; undated "b"]
  = [undated "a"; undated "b"].
Proof.
  intros undated.
  apply (local_time_sort_without_dates (with_sortOrder "newest" initialState)
           [undated "a"; undated "b"]).
  - by left.
  - repeat constructor.
Defined.

End LocalViewMore.

(** ** Reversal, the empty list, and the small components *)

Section LocalViewRest.
Import JsString ModifyProductsList ModifyProductsListRest UseProducts.

Lemma filter_nil_iff {A} (f : A -> bool) (l : list A) :
  List.filter f l = [] <-> Forall (fun a => f a = false) l.
Proof.
  split; [|apply filter_none].
  induction l as [|x l IH]; simpl; [constructor|].
  destruct (f x) eqn:Hx; [done|]. intros H. constructor; auto.
Qed.

Lemma view_nil_iff st products :
  view st products = []
  <-> Forall (fun a => filter_callback st a = false) products.
Proof.
  rewrite <- filter_nil_iff. split; intros H.
  - apply Permutation_nil. rewrite <- H. apply view_perm.
  - unfold view. by rewrite H.
Qed.

(** X17.  When the prices that pass the filter are pairwise distinct
    (absent read as 0), the view under "price_desc" is the view under
    "price_asc" reversed; likewise "newest" is "oldest" reversed when the
    creation times are dates and pairwise distinct. *)
Theorem local_descending_reverses_ascending
    (st : State) (products : list Product) :
  (List.NoDup
     (List.map price_or_0 (List.filter (filter_callback st) products)) ->
   view (with_sortOrder "price_desc" st) products
   = rev (view (with_sortOrder "price_asc" st) products))
  /\ (Forall has_time products ->
      List.NoDup
        (List.map getTime (List.filter (filter_callback st) products)) ->
      view (with_sortOrder "newest" st) products
      = rev (view (with_sortOrder "oldest" st) products)).
Proof.
  split.
  - intros Hnd. unfold view.
    change (filter_callback (with_sortOrder "price_desc" st))
      with (filter_callback st).
    change (filter_callback (with_sortOrder "price_asc" st))
      with (filter_callback st).
    apply (sorted_by_opposite _ price_or_0); [| |done].
    + by apply keyed_price_asc.
    + by apply keyed_price_desc.
  - intros Ht Hnd. unfold view.
    change (filter_callback (with_sortOrder "newest" st))
      with (filter_callback st).
    change (filter_callback (with_sortOrder "oldest" st))
      with (filter_callback st).
    apply (sorted_by_opposite _ getTime); [| |done].
    + apply keyed_oldest; [done | by apply Forall_has_time_filter].
    + apply keyed_newest; [done | by apply Forall_has_time_filter].
Qed.

Lemma local_descending_reverses_ascending_witness :
  let a := sample "a" (Some 10) "published" in
  let b := sample "b" (Some 30) "published" in
  let c := sample "c" None "draft" in
  view (with_sortOrder "price_desc" initialState) [a; b; c]
  = rev (view (with_sortOrder "price_asc" initialState) [a; b; c]).
Proof.
  intros a b c.
  apply (local_descending_reverses_ascending initialState [a; b; c]).
  repeat constructor; simpl; intuition discriminate.
Defined.

(** X18.  The "No products found" row is rendered exactly when the list
    is not loading and no product of the input passes the filter; it is
    never rendered together with the loading row. *)
Theorem local_no_products_message
    (isLoading : bool) (st : State) (products : list Product) :
  (shows_no_products isLoading (view st products) = true
   <-> isLoading = false
       /\ Forall (fun a => filter_callback st a = false) products)
  /\ shows_loading isLoading
     && shows_no_products isLoading (view st products) = false.
Proof.
  unfold shows_no_products, shows_loading. split.
  - rewrite andb_true_iff, negb_true_iff, Nat.eqb_eq, <- view_nil_iff.
    split; intros [H1 H2]; (split; [done|]).
    + by apply length_zero_iff_nil.
    + by rewrite H2.
  - by destruct isLoading.
Qed.

(** X19.  The admin check yields a true value only for a signed-in user
    for whom the [is_admin] call answered true; a failed call, which
    carries no data, counts as not an admin.  The call is made for the
    signed-in user's own id and for nobody else, and not at all when
    nobody is signed in. *)
Theorem isAdmin_only_for_confirmed_user (b : Backend) :
  (is_truthy (snd (isAdmin_queryFn b)) = true
   <-> exists user,
         getUser b = Some user
         /\ rpc_data (rpc_is_admin b (auth_id user)) = Some true)
  /\ (forall uid,
        In (RpcIsAdmin uid) (fst (isAdmin_queryFn b))
        <-> exists user, getUser b = Some user /\ uid = auth_id user).
Proof.
  unfold isAdmin_queryFn, is_truthy.
  destruct (getUser b) as [user|]; simpl; split.
  - split.
    + intros H. exists user. split; [done|].
      destruct (rpc_data (rpc_is_admin b (auth_id user))) as [[]|];
        simpl in H; congruence.
    + intros (user' & Hu & Hd). injection Hu as Hu. subst user'.
      by rewrite Hd.
  - intros uid. split.
    + intros [H | [[= <-] | []]]; [discriminate | eauto].
    + intros (user' & Hu & Hid). injection Hu as Hu. subst user' uid.
      right. by left.
  - split; [done | by intros (user & H & _)].
  - intros uid. split.
    + intros [H | []]. discriminate.
    + by intros (user & H & _).
Qed.

(** X20.  The submit button can be pressed exactly when nothing is being
    processed and the form is valid; whenever it shows the processing
    indicator it is disabled, and otherwise it shows the caller's text. *)
Theorem submit_button_enabled_iff
    (isLoading isValid : bool) (submitButtonText : string) :
  let button := ProductSubmitButton.render isLoading isValid submitButtonText in
  (ProductSubmitButton.disabled button = false
   <-> isLoading = false /\ isValid = true)
  /\ (ProductSubmitButton.content button = ProductSubmitButton.Processing ->
      ProductSubmitButton.disabled button = true)
  /\ (ProductSubmitButton.content button
      <> ProductSubmitButton.Processing ->
      ProductSubmitButton.content button
      = ProductSubmitButton.Text submitButtonText).
Proof.
  destruct isLoading, isValid; simpl; intuition congruence.
Qed.

Lemma submit_button_enabled_iff_witness :
  ProductSubmitButton.disabled
    (ProductSubmitButton.render true true "Save") = true.
Proof.
  apply (submit_button_enabled_iff true true "Save"). reflexivity.
Defined.

End LocalViewRest.

(** ** Narrowing a search, repeated renders, failed fetches *)

Section SearchAndRenders.
Import JsString ModifyProductsList.
Local Open Scope string_scope.

Lemma append_assoc3 (a b c : string) : (a ++ b) ++ c = a ++ (b ++ c).
Proof.
  induction a as [|x a IH]; [done|].
  change (String x ((a ++ b) ++ c) = String x (a ++ (b ++ c))).
  by f_equal.
Qed.

Lemma occurs_in_trans u t s : occurs_in u t -> occurs_in t s -> occurs_in u s.
Proof.
  unfold occurs_in. intros (pre' & post' & ->) (pre & post & ->).
  exists (pre ++ pre'), (post' ++ post).
  by rewrite !append_assoc3.
Qed.

Lemma all_space_append a b :
  all_space (a ++ b) = all_space a && all_space b.
Proof.
  induction a as [|x a IH]; simpl; [done|].
  by rewrite IH, andb_assoc.
Qed.

Lemma all_space_occurs t s :
  occurs_in t s -> all_space s = true -> all_space t = true.
Proof.
  intros (pre & post & ->). rewrite !all_space_append, !andb_true_iff.
  tauto.
Qed.

Lemma appears_in_narrow q1 q2 field :
  occurs_in (toLowerCase q1) (toLowerCase q2) ->
  appears_in q2 field -> appears_in q1 field.
Proof.
  intros Hq (s & -> & Hs). exists s. split; [done|].
  by eapply occurs_in_trans.
Qed.

End SearchAndRenders.

Section SearchAndRendersClaims.
Import JsString ModifyProductsList.

(** X21.  Typing more never brings a product back: when the search text
    of one state occurs, ignoring case, in the search text of another
    state with the same category, every product that passes the filter
    of the longer text passes the filter of the shorter one. *)
Theorem local_filter_narrows (st1 st2 : State) (product : Product) :
  occurs_in (toLowerCase (searchQuery st1)) (toLowerCase (searchQuery st2)) ->
  selectedCategory st1 = selectedCategory st2 ->
  filter_callback st2 product = true ->
  filter_callback st1 product = true.
Proof.
  intros Hq Hc. unfold filter_callback.
  rewrite !andb_true_iff, !matchesSearch_spec, !matchesCategory_spec, Hc.
  intros [[Hb | Ht] Hcat]; (split; [|done]).
  - left. rewrite <- all_space_toLowerCase.
    apply (all_space_occurs _ _ Hq). by rewrite all_space_toLowerCase.
  - right. unfold text_matches in *.
    destruct Ht as [Ht | [Ht | Ht]]; eauto using appears_in_narrow.
Qed.

Lemma local_filter_narrows_witness :
  let st1 := {| searchQuery := "Ali"; selectedCategory := "all";
                sortOrder := "none" |} in
  let st2 := {| searchQuery := "alice"; selectedCategory := "all";
                sortOrder := "none" |} in
  filter_callback st1 (sample "a" (Some 10) "published") = true.
Proof.
  intros st1 st2.
  apply (local_filter_narrows st1 st2); [|reflexivity|reflexivity].
  by exists ""%string, "ce"%string.
Defined.

(** X22.  In the default mode, when no product that passes the filter is
    a draft, the view keeps the order of the input. *)
Theorem local_default_sort_without_drafts
    (st : State) (products : list Product) :
  default_mode st ->
  Forall (fun a => is_draft a = false) products ->
  view st products = List.filter (filter_callback st) products.
Proof.
  intros Hd Hn. rewrite view_default_partition by done.
  assert (Hf : Forall (fun a => is_draft a = false)
                 (List.filter (filter_callback st) products)).
  { rewrite List.Forall_forall in *. intros a Ha.
    apply List.filter_In in Ha. apply Hn, Ha. }
  rewrite (filter_none _ _ Hf). simpl. apply filter_all.
  eapply Forall_impl; [exact Hf|]. intros a Ha. simpl. by rewrite Ha.
Qed.

Lemma local_default_sort_without_drafts_witness :
  let a := sample "a" (Some 30) "published" in
  let b := sample "b" (Some 10) "published" in
  view initialState [a; b] = [a; b].
Proof.
  intros a b. apply (local_default_sort_without_drafts initialState [a; b]).
  - repeat split; discriminate.
  - repeat constructor.
Defined.

Lemma filteredAndSortedProducts_run st products (s : JsArray.store) l :
  s !! products = Some l ->
  filteredAndSortedProducts st products s
  = Some (fresh (dom s), <[fresh (dom s) := view st l]> s).
Proof.
  intros H. unfold filteredAndSortedProducts, JsArray.bind, JsArray.filter.
  rewrite H. unfold JsArray.sort. rewrite lookup_insert_eq.
  by rewrite insert_insert_eq.
Qed.

(** X23.  Two renders in a row, under any two states, give two different
    arrays: the second derivation leaves the first view and the input
    array as they were, and each view holds what its own state selects. *)
Theorem local_view_renders_do_not_interfere
    (st1 st2 : State) (products : JsArray.ref) (s : JsArray.store)
    (l : list Product) :
  s !! products = Some l ->
  exists r1 s1 r2 s2,
    filteredAndSortedProducts st1 products s = Some (r1, s1)
    /\ filteredAndSortedProducts st2 products s1 = Some (r2, s2)
    /\ r1 <> r2
    /\ s2 !! r1 = Some (view st1 l)
    /\ s2 !! r2 = Some (view st2 l)
    /\ s2 !! products = Some l.
Proof.
  intros H.
  set (r1 := fresh (dom s)).
  set (s1 := <[r1 := view st1 l]> s).
  assert (Hr1 : s !! r1 = None) by apply fresh_ref_unused.
  assert (Hp1 : s1 !! products = Some l).
  { unfold s1. rewrite lookup_insert_ne; [done | congruence]. }
  set (r2 := fresh (dom s1)).
  assert (Hr2 : s1 !! r2 = None) by apply fresh_ref_unused.
  assert (Hne : r1 <> r2).
  { intros He. unfold s1 in Hr2. rewrite <- He, lookup_insert_eq in Hr2.
    discriminate. }
  exists r1, s1, r2, (<[r2 := view st2 l]> s1).
  split; [by apply filteredAndSortedProducts_run|].
  split; [by apply filteredAndSortedProducts_run|].
  split; [done|]. split; [|split].
  - rewrite lookup_insert_ne by done. apply lookup_insert_eq.
  - apply lookup_insert_eq.
  - rewrite lookup_insert_ne; [done | congruence].
Qed.

Lemma local_view_renders_do_not_interfere_witness :
  let a := sample "a" (Some 30) "published" in
  let b := sample "b" (Some 10) "published" in
  let st1 := with_sortOrder "price_asc" initialState in
  let s : JsArray.store := {[ 1%positive := [a; b] ]} in
  exists r1 s1 r2 s2,
    filteredAndSortedProducts st1 1%positive s = Some (r1, s1)
    /\ filteredAndSortedProducts initialState 1%positive s1 = Some (r2, s2)
    /\ r1 <> r2
    /\ s2 !! r1 = Some [b; a]
    /\ s2 !! r2 = Some [a; b]
    /\ s2 !! 1%positive = Some [a; b].
Proof.
  intros a b st1 s.
  apply (local_view_renders_do_not_interfere st1 initialState 1%positive s
           [a; b]).
  reflexivity.
Defined.

End SearchAndRendersClaims.

Section FetcherErrors.
Import JsString UseProducts.

(** X24.  [fetchProducts] throws exactly when the store reports an error,
    and it throws that error, whatever rows came with it; otherwise it
    returns the rows of the store unchanged.  An error never becomes an
    empty page. *)
Theorem fetchProducts_error_or_rows
    (supabase : Supabase) (p : Params) (pageParam : option Z) :
  let response :=
    execute supabase (fetchProducts_query supabase p pageParam) in
  (forall e,
     fetchProducts supabase p pageParam = inr e <-> error response = Some e)
  /\ (forall rows,
        fetchProducts supabase p pageParam = inl rows
        <-> error response = None /\ rows = data response).
Proof.
  intros response. unfold fetchProducts. fold response.
  destruct (error response) as [e'|]; split.
  - intros e. split; congruence.
  - intros rows. split; [discriminate | by intros [? _]].
  - intros e. split; discriminate.
  - intros rows. split; [by intros [= <-] | by intros [_ ->]].
Qed.

End FetcherErrors.
